(** * starlette_graphene3: a shallow embedding of the GraphQL ASGI application

    This development models [src/starlette_graphene3.py]:
    - the Python values the application handles (JSON trees, upload handles,
      connection objects) and the exceptions it raises or lets through;
    - the multipart operation extractor and the recursive file injector
      [_inject_file_to_operations];
    - the content-type dispatch [_get_operation_from_request] and the HTTP
      handler [GraphQLApp._handle_http_request];
    - the context builder [GraphQLApp._get_context_value];
    - the WebSocket session of [GraphQLApp._run_websocket_server]: the
      sequential message loop, the subscription registry, the observer task of
      each subscription and the teardown in the [finally] block, as a step
      function over an explicit session state driven by a schedule of events.

    The GraphQL engine (parse, validate, execute, subscribe) and the JSON
    decoder are external collaborators: their results are inputs of the model. *)

From Stdlib Require Import String Ascii List ZArith Bool Lia.
Import ListNotations.
Open Scope string_scope.
Open Scope list_scope.
Set Warnings "-register-all".

(** ** Python values *)

(** The values the application manipulates: JSON values as produced by
    [json.loads], starlette [UploadFile] handles, connection objects and the
    [BackgroundTasks()] collector of the default context. *)
Inductive PyVal : Type :=
| PNone
| PBool (b : bool)
| PInt (z : Z)
| PStr (s : string)
| PList (l : list PyVal)
| PDict (kv : list (string * PyVal))
| PUpload (h : nat)                 (* UploadFile number h of the form *)
| PHttpConn (n : nat)               (* starlette Request *)
| PWebSocket (params : option PyVal) (* WebSocket, with scope["connection_params"] *)
| PBackground.                      (* BackgroundTasks() *)

(** Python truthiness ([bool(v)]). *)
Definition truthy (v : PyVal) : bool :=
  match v with
  | PNone => false
  | PBool b => b
  | PInt z => negb (Z.eqb z 0)
  | PStr s => negb (String.eqb s "")
  | PList l => match l with [] => false | _ => true end
  | PDict kv => match kv with [] => false | _ => true end
  | _ => true
  end.

(** Exceptions raised or propagated by the code. *)
Inductive Exn : Type :=
| ValueError (msg : string)
| KeyError
| IndexError
| TypeError
| AttributeError
| RuntimeError
| WebSocketDisconnect
| UserError (name : string).   (* anything raised by user-supplied callables *)

(** Dictionary lookup on a Python dict with string keys (keys are unique). *)
Fixpoint dict_get {A} (k : string) (kv : list (string * A)) : option A :=
  match kv with
  | [] => None
  | (k', v) :: r => if String.eqb k k' then Some v else dict_get k r
  end.

(** [d[k] = v] on a dict: an existing key keeps its position, a new key is
    appended (insertion order). *)
Fixpoint dict_set {A} (k : string) (v : A) (kv : list (string * A))
  : list (string * A) :=
  match kv with
  | [] => [(k, v)]
  | (k', v') :: r =>
      if String.eqb k k' then (k', v) :: r else (k', v') :: dict_set k v r
  end.

(** ** Text

    A Python [str] is represented by its UTF-8 encoding, a Rocq [string] of
    bytes.  [chars] cuts an encoding into the encodings of its code points
    (a lead byte and the continuation bytes after it), [code_point] decodes
    one of them.  A lone surrogate, which [json.loads] can produce, is kept
    in the three-byte form of the other code points below U+10000. *)
Module Utf8.

Definition byte (b : ascii) : Z := Z.of_nat (nat_of_ascii b).

(** A continuation byte [10xxxxxx]. *)
Definition is_cont (b : ascii) : bool := (128 <=? byte b)%Z && (byte b <? 192)%Z.

Fixpoint chars (l : list ascii) : list (list ascii) :=
  match l with
  | [] => []
  | b :: r =>
      match chars r with
      | (c :: cs) :: gs => if is_cont c then (b :: c :: cs) :: gs else [b] :: (c :: cs) :: gs
      | gs => [b] :: gs
      end
  end.

Definition code_point (g : list ascii) : Z :=
  match g with
  | [b0] => byte b0
  | [b0; b1] => Z.lor (Z.shiftl (Z.land (byte b0) 31) 6) (Z.land (byte b1) 63)
  | [b0; b1; b2] =>
      Z.lor (Z.shiftl (Z.land (byte b0) 15) 12)
            (Z.lor (Z.shiftl (Z.land (byte b1) 63) 6) (Z.land (byte b2) 63))
  | [b0; b1; b2; b3] =>
      Z.lor (Z.shiftl (Z.land (byte b0) 7) 18)
            (Z.lor (Z.shiftl (Z.land (byte b1) 63) 12)
                   (Z.lor (Z.shiftl (Z.land (byte b2) 63) 6) (Z.land (byte b3) 63)))
  | _ => 65533 (* no encoding of a code point has another length *)
  end.

(** The code points of a [str]. *)
Definition code_points (s : string) : list Z :=
  map code_point (chars (list_ascii_of_string s)).

End Utf8.

(** ** Python [int(s)] on a [str], CPython 3.11

    [int] first maps the text to ASCII
    ([_PyUnicode_TransformDecimalAndSpaceToASCII]): code points below 127
    are kept, other whitespace becomes a space, other decimal digits their
    ASCII digit, anything else ['?'].  It then reads the ASCII text in base
    10 ([PyLong_FromString]): surrounding ASCII whitespace, one optional
    sign, then digits with single underscores allowed between digits.  A
    number of more than [sys.get_int_max_str_digits()] digits (4300 by
    default) is refused with a [ValueError]. *)
Module PyInt.

(** The code points from 127 on for which [Py_UNICODE_ISSPACE] holds
    (Unicode 14.0, the database of CPython 3.11). *)
Definition unicode_spaces : list Z :=
  [133; 160; 5760; 8192; 8193; 8194; 8195; 8196; 8197; 8198; 8199; 8200;
   8201; 8202; 8232; 8233; 8239; 8287; 12288]%Z.

(** The zero of every run of ten decimal digits (category Nd) of Unicode
    14.0; every decimal digit is [z + d] for one of them. *)
Definition decimal_zeros : list Z :=
  [48; 1632; 1776; 1984; 2406; 2534; 2662; 2790; 2918; 3046; 3174; 3302;
   3430; 3558; 3664; 3792; 3872; 4160; 4240; 6112; 6160; 6470; 6608; 6784;
   6800; 6992; 7088; 7232; 7248; 42528; 43216; 43264; 43472; 43504; 43600;
   44016; 65296; 66720; 68912; 69734; 69872; 69942; 70096; 70384; 70736;
   70864; 71248; 71360; 71472; 71904; 72016; 72784; 73040; 73120; 92768;
   92864; 93008; 120782; 120792; 120802; 120812; 120822; 123200; 123632;
   125264; 130032]%Z.

(** [Py_UNICODE_TODECIMAL] *)
Definition to_decimal (c : Z) : option Z :=
  match find (fun z => (z <=? c) && (c <? z + 10))%Z decimal_zeros with
  | Some z => Some (c - z)%Z
  | None => None
  end.

(** [Py_ISSPACE] on ASCII: space, tab, newline, vertical tab, form feed,
    carriage return. *)
Definition is_space (c : Z) : bool := (c =? 32)%Z || ((9 <=? c) && (c <=? 13))%Z.

Definition is_unicode_space (c : Z) : bool :=
  if (c <? 127)%Z then is_space c else existsb (Z.eqb c) unicode_spaces.

Definition to_ascii (c : Z) : Z :=
  if (c <? 127)%Z then c
  else if existsb (Z.eqb c) unicode_spaces then 32%Z
  else match to_decimal c with
       | Some d => (48 + d)%Z
       | None => 63%Z
       end.

Definition is_digit (c : Z) : bool := (48 <=? c)%Z && (c <=? 57)%Z.

Definition digit_val (c : Z) : Z := (c - 48)%Z.

Definition max_str_digits : Z := 4300.

Fixpoint drop_spaces (l : list Z) : list Z :=
  match l with
  | c :: r => if is_space c then drop_spaces r else l
  | [] => []
  end.

Definition strip (l : list Z) : list Z :=
  rev (drop_spaces (rev (drop_spaces l))).

(** Digits after the first one: the value so far, the number of digits
    so far, and whether the previous character was an underscore. *)
Fixpoint digits (acc n : Z) (us : bool) (l : list Z) : option (Z * Z) :=
  match l with
  | [] => if us then None else Some (acc, n)
  | c :: r =>
      if is_digit c then digits (acc * 10 + digit_val c)%Z (n + 1)%Z false r
      else if (c =? 95)%Z && negb us then digits acc n true r
      else None
  end.

Definition unsigned (l : list Z) : option Z :=
  match l with
  | c :: r =>
      if is_digit c then
        match digits (digit_val c) 1 false r with
        | Some (v, n) => if (n <=? max_str_digits)%Z then Some v else None
        | None => None
        end
      else None
  | [] => None
  end.

Definition parse (s : string) : option Z :=
  match strip (map to_ascii (Utf8.code_points s)) with
  | c :: r =>
      if (c =? 45)%Z then option_map Z.opp (unsigned r)
      else if (c =? 43)%Z then unsigned r
      else unsigned (c :: r)
  | [] => None
  end.

End PyInt.

(** [s.split(sep)] with an explicit one-character separator. *)
Fixpoint py_split (sep : ascii) (s : string) : list string :=
  match s with
  | EmptyString => [""]
  | String c r =>
      match py_split sep r with
      | [] => [] (* unreachable: split always yields at least one piece *)
      | w :: ws => if Ascii.eqb c sep then "" :: w :: ws else String c w :: ws
      end
  end.

(** ** Subscripting: [ops_tree[key]] and [ops_tree[key] = v] *)

(** A path segment after [key = int(key)]. *)
Inductive Key : Type :=
| KInt (z : Z)
| KStr (s : string).

Definition to_key (seg : string) : Key :=
  match PyInt.parse seg with
  | Some z => KInt z
  | None => KStr seg
  end.

(** Python normalises a negative sequence index by adding the length. *)
Definition norm_index (z : Z) (len : nat) : option nat :=
  let n := Z.of_nat len in
  if andb (Z.leb (- n) z) (Z.ltb z n)
  then Some (Z.to_nat (if Z.ltb z 0 then z + n else z))
  else None.

(** [t[key]]. A JSON dict only has string keys, so an integer key is a
    [KeyError] there; a string can be indexed by an integer and gives a
    one-character string. *)
Definition getitem (t : PyVal) (k : Key) : PyVal + Exn :=
  match t, k with
  | PDict kv, KStr s => match dict_get s kv with Some v => inl v | None => inr KeyError end
  | PDict _, KInt _ => inr KeyError
  | PList l, KInt z =>
      match norm_index z (length l) with
      | Some i => match nth_error l i with Some v => inl v | None => inr IndexError end
      | None => inr IndexError
      end
  | PStr s, KInt z =>
      let cs := Utf8.chars (list_ascii_of_string s) in
      match norm_index z (length cs) with
      | Some i => match nth_error cs i with
                  | Some c => inl (PStr (string_of_list_ascii c))
                  | None => inr IndexError
                  end
      | None => inr IndexError
      end
  | _, _ => inr TypeError
  end.

Fixpoint list_set {A} (i : nat) (v : A) (l : list A) : list A :=
  match l, i with
  | [], _ => []
  | _ :: r, O => v :: r
  | x :: r, S i' => x :: list_set i' v r
  end.

(** [t[key] = v]; the code only assigns after a successful [t[key]] on a
    dict or a list.  A string is immutable and is never assigned into: the
    recursion below only writes back children that it changed, and nothing
    below a string is ever changed. *)
Definition setitem (t : PyVal) (k : Key) (v : PyVal) : PyVal + Exn :=
  match t, k with
  | PDict kv, KStr s => inl (PDict (dict_set s v kv))
  | PList l, KInt z =>
      match norm_index z (length l) with
      | Some i => inl (PList (list_set i v l))
      | None => inr IndexError
      end
  | PStr _, KInt _ => inl t
  | _, _ => inr TypeError
  end.

(** [_inject_file_to_operations(ops_tree, _file, path)].  The Python code
    mutates [ops_tree] in place; the model returns the mutated tree.  The
    recursive call mutates the child object [ops_tree[key]], which the model
    writes back into its parent.  [path[0]] on an empty tuple would raise
    [IndexError]; [split] never produces one. *)
Fixpoint inject_file_to_operations (ops_tree : PyVal) (file : PyVal)
  (path : list string) : PyVal + Exn :=
  match path with
  | [] => inr IndexError
  | [seg] =>
      let key := to_key seg in
      match getitem ops_tree key with
      | inr e => inr e
      | inl PNone => setitem ops_tree key file
      | inl _ => inl ops_tree
      end
  | seg :: rest =>
      let key := to_key seg in
      match getitem ops_tree key with
      | inr e => inr e
      | inl child =>
          match inject_file_to_operations child file rest with
          | inr e => inr e
          | inl child' => setitem ops_tree key child'
          end
      end
  end.

(** Resolution of a path as the spec describes it: descend segment by
    segment, a segment that parses as an integer indexing a sequence and any
    other one naming an object key. *)
Fixpoint get_path (t : PyVal) (segs : list string) : PyVal + Exn :=
  match segs with
  | [] => inl t
  | seg :: rest =>
      match getitem t (to_key seg) with
      | inr e => inr e
      | inl child => get_path child rest
      end
  end.

(** [del d[k]]; keys are unique, so removing every entry with key [k] is
    removing the one entry. *)
Definition dict_delete {A} (k : string) (kv : list (string * A)) : list (string * A) :=
  filter (fun '(k', _) => negb (String.eqb k k')) kv.

(** ** The context builder: [GraphQLApp._get_context_value] *)

(** What calling a user callable gives: a value, an exception, or an
    awaitable whose awaiting gives a value or an exception. *)
Inductive CallOut : Type :=
| CRet (v : PyVal)
| CRaise (e : Exn)
| CAwaitable (r : PyVal + Exn).

(** The [context_value] argument of [GraphQLApp]: a callable of the
    connection, or any other (static) value, [None] by default. *)
Inductive ContextValue : Type :=
| CtxCallable (f : PyVal -> CallOut)
| CtxStatic (v : PyVal).

(** The configuration of a [GraphQLApp] that the modelled code reads. *)
Record GraphQLApp : Type := mkApp {
  context_value : ContextValue;
  error_formatter : string -> PyVal   (* GraphQLError (by message) -> JSON *)
}.

Definition default_context (request : PyVal) : PyVal :=
  PDict [("request", request); ("background", PBackground)].

Definition get_context_value (app : GraphQLApp) (request : PyVal) : PyVal + Exn :=
  match context_value app with
  | CtxCallable f =>
      match f request with
      | CRet v => inl v
      | CRaise e => inr e
      | CAwaitable r => r
      end
  | CtxStatic v => if truthy v then inl v else inl (default_context request)
  end.

(** ** HTTP requests *)

(** A part of a parsed multipart form: a plain field or an [UploadFile]. *)
Inductive FormPart : Type :=
| FPField (s : string)
| FPFile (h : nat).

(** The parts of a starlette [Request] the code reads.  [req_form] is the
    result of [await request.form()], [None] when it raises; the form is a
    dict of its fields. *)
Record Request : Type := mkRequest {
  req_id : nat;
  req_content_type : option string;  (* the Content-Type header *)
  req_body : string;
  req_form : option (list (string * FormPart))
}.

Definition MSG_BAD_CONTENT_TYPE :=
  "Content-type must be application/json or multipart/form-data".

Definition header_content_type (r : Request) : string :=
  match py_split ";" (match req_content_type r with Some h => h | None => "" end) with
  | c :: _ => c
  | [] => ""
  end.

(** [{k: v for (k, v) in request_body.items() if isinstance(v, UploadFile)}] *)
Definition upload_files (body : list (string * FormPart)) : list (string * PyVal) :=
  flat_map (fun '(k, p) => match p with FPFile h => [(k, PUpload h)] | FPField _ => [] end)
    body.

(** [for path in paths]: a list yields its items, a string its characters,
    a dict its keys; other JSON values are not iterable. *)
Definition iterate (paths : PyVal) : list PyVal + Exn :=
  match paths with
  | PList l => inl l
  | PStr s =>
      inl (map (fun c => PStr (string_of_list_ascii c)) (Utf8.chars (list_ascii_of_string s)))
  | PDict kv => inl (map (fun '(k, _) => PStr k) kv)
  | _ => inr TypeError
  end.

Section Http.

(** The JSON decoder ([json.loads], also behind [request.json()]): [None]
    when it raises. *)
Variable json_loads : string -> option PyVal.

(** The engine's [graphql(...)] entry point: from the query, variables,
    operation name and context, the result's [data] and [errors], or the
    exception it raises.  [graphql] turns the [GraphQLError]s of parsing,
    validation and execution into errors of the result; other exceptions
    escape it, such as the [TypeError] of graphql-core for a query that is
    not a string or for variables that are not a dict. *)
Variable graphql : PyVal -> PyVal -> PyVal -> PyVal -> (PyVal * list string) + Exn.

(** [json.loads(request_body.get(name))]; [json.loads] of [None] or of an
    [UploadFile] raises [TypeError], caught like a decoding error. *)
Definition form_json (body : list (string * FormPart)) (name : string) : option PyVal :=
  match dict_get name body with
  | Some (FPField s) => json_loads s
  | _ => None
  end.

(** The inner loop [for path in paths: ...]. *)
Fixpoint inject_paths (operations : PyVal) (files : list (string * PyVal))
  (name : string) (paths : list PyVal) : PyVal + Exn :=
  match paths with
  | [] => inl operations
  | PStr p :: ps =>
      let path := py_split "." p in
      match dict_get name files with
      | None => inr KeyError                      (* files[name] *)
      | Some file =>
          match inject_file_to_operations operations file path with
          | inr e => inr e
          | inl operations' => inject_paths operations' files name ps
          end
      end
  | _ :: _ => inr AttributeError                  (* path.split on a non-string *)
  end.

(** The outer loop [for (name, paths) in name_path_map.items(): ...]. *)
Fixpoint inject_map (operations : PyVal) (files : list (string * PyVal))
  (name_path_map : list (string * PyVal)) : PyVal + Exn :=
  match name_path_map with
  | [] => inl operations
  | (name, paths) :: rest =>
      match iterate paths with
      | inr e => inr e
      | inl ps =>
          match inject_paths operations files name ps with
          | inr e => inr e
          | inl operations' => inject_map operations' files rest
          end
      end
  end.

Definition is_dict_or_list (v : PyVal) : bool :=
  match v with PDict _ | PList _ => true | _ => false end.

Definition get_operation_from_multipart (form : option (list (string * FormPart)))
  : PyVal + Exn :=
  match form with
  | None => inr (ValueError "Request body is not a valid multipart/form-data")
  | Some request_body =>
      match form_json request_body "operations" with
      | None => inr (ValueError "'operations' must be a valid JSON")
      | Some operations =>
          if negb (is_dict_or_list operations)
          then inr (ValueError "'operations' field must be an Object or an Array")
          else
            match form_json request_body "map" with
            | None => inr (ValueError "'map' field must be a valid JSON")
            | Some (PDict name_path_map) =>
                inject_map operations (upload_files request_body) name_path_map
            | Some _ => inr (ValueError "'map' field must be an Object")
            end
      end
  end.

Definition get_operation_from_request (r : Request) : PyVal + Exn :=
  let content_type := header_content_type r in
  if String.eqb content_type "application/json" then
    match json_loads (req_body r) with
    | Some v => inl v
    | None => inr (ValueError "Request body is not a valid JSON")
    end
  else if String.eqb content_type "multipart/form-data" then
    get_operation_from_multipart (req_form r)
  else inr (ValueError MSG_BAD_CONTENT_TYPE).

(** What the handler does: answer with a JSON response, or let an exception
    escape (the ASGI server then answers 500). *)
Inductive HttpOutcome : Type :=
| JSONResponse (status_code : Z) (content : PyVal) (background : PyVal)
| Raised (e : Exn).

(** [v.get(k)] on a dict; other values have no [get]. *)
Definition py_get (v : PyVal) (k : string) : PyVal + Exn :=
  match v with
  | PDict kv => inl (match dict_get k kv with Some x => x | None => PNone end)
  | _ => inr AttributeError
  end.

Definition result_payload (app : GraphQLApp) (data : PyVal) (errors : list string) : PyVal :=
  PDict ([("data", data)] ++
         match errors with
         | [] => []
         | _ => [("errors", PList (map (error_formatter app) errors))]
         end).

Definition handle_http_request (app : GraphQLApp) (request : Request) : HttpOutcome :=
  match get_operation_from_request request with
  | inr (ValueError msg) => JSONResponse 400 (PDict [("errors", PList [PStr msg])]) PNone
  | inr e => Raised e
  | inl (PList _) =>
      JSONResponse 400
        (PDict [("errors", PList [PStr "This server does not support batching"])]) PNone
  | inl operation =>
      match getitem operation (KStr "query") with
      | inr e => Raised e
      | inl query =>
          match py_get operation "variables", py_get operation "operationName" with
          | inl variable_values, inl operation_name =>
              match get_context_value app (PHttpConn (req_id request)) with
              | inr e => Raised e
              | inl ctx =>
                  match graphql query variable_values operation_name ctx with
                  | inr e => Raised e
                  | inl (data, errors) =>
                      match py_get ctx "background" with
                      | inr e => Raised e
                      | inl bg => JSONResponse 200 (result_payload app data errors) bg
                      end
                  end
              end
          | inr e, _ | _, inr e => Raised e
          end
      end
  end.

End Http.

(** ** The WebSocket session *)

Module WS.

Inductive WebSocketState : Type := CONNECTING | CONNECTED | DISCONNECTED.

Definition ws_state_eqb (a b : WebSocketState) : bool :=
  match a, b with
  | CONNECTING, CONNECTING | CONNECTED, CONNECTED | DISCONNECTED, DISCONNECTED => true
  | _, _ => false
  end.

Inductive OperationType : Type := QUERY | MUTATION | SUBSCRIPTION.

(** What the first lines of [_ws_on_start] make of the payload of a
    [start]: the lookups [data["query"]], [data.get("variables")] and
    [data.get("operationName")] raising (a payload without "query", or one
    that is not a dict); [parse] raising a [GraphQLError]; [parse],
    [get_operation_ast] or [validate] raising another exception (graphql-core
    raises [TypeError] for a query that is not a string); or the operation
    selected by [get_operation_ast] (if any) with the errors of [validate]. *)
Inductive ParseResult : Type :=
| QueryLookupFailed (e : Exn)
| ParseFailed (error : string)
| ParseRaised (e : Exn)
| Parsed (operation : option OperationType) (validation_errors : list string).

(** How a subscription's producer fails after its results, if it does:
    with a [GraphQLError] or with another exception (by [str(error)]). *)
Inductive GenFailure : Type :=
| FailGraphQL (message : string)
| FailOther (message : string).

Definition failure_message (f : GenFailure) : string :=
  match f with FailGraphQL m | FailOther m => m end.

(** [await subscribe(...)]: an [ExecutionResult] with errors, an async
    iterator of results (their [data]) possibly ending in an exception, or
    an exception raised by [subscribe] itself (graphql-core raises
    [TypeError] for variables that are not a dict). *)
Inductive SubscribeResult : Type :=
| SubscribeErrors (error : string) (more : list string)
| SubscribeStream (results : list PyVal) (failure : option GenFailure)
| SubscribeRaise (e : Exn).

(** [execute(...)]: an [ExecutionResult] at once, an awaitable of one, or an
    exception raised by [execute] itself (graphql-core raises [TypeError]
    for variables that are not a dict). *)
Inductive ExecuteResult : Type :=
| ExecuteSync (data : PyVal) (errors : list string)
| ExecuteAwaitable (data : PyVal) (errors : list string)
| ExecuteRaise (e : Exn).

(** The payload of one [start] message, by what the code and the engine do
    with it. *)
Record StartPayload : Type := mkStart {
  sp_parse : ParseResult;
  sp_subscribe : SubscribeResult;
  sp_execute : ExecuteResult
}.

(** Client messages, by their [type]. *)
Inductive ClientMessage : Type :=
| ConnectionInit (payload : PyVal)
| ConnectionTerminate
| Start (id : string) (payload : StartPayload)
| Stop (id : string)
| Unknown (type : string).

(** Server messages. *)
Inductive ServerMessage : Type :=
| ConnectionAck
| Data (id : string) (payload : PyVal)
| Error (id : string) (payload : PyVal)
| Complete (id : string).

(** A subscription's async generator: the results still to come, how it
    ends, whether [aclose()] was called, whether it has ended by itself. *)
Record AsyncGen : Type := mkGen {
  pending : list PyVal;
  failure : option GenFailure;
  closed : bool;
  exhausted : bool
}.

(** The task running [_observe_subscription(asyncgen, operation_id, ws)]. *)
Record Observer : Type := mkObserver {
  obs_gen : nat;
  obs_id : string;
  obs_done : bool
}.

Inductive LoopStatus : Type :=
| Looping
| Ended (raised : option Exn).   (* the [finally] block has run *)

(** The state of one connection: the [subscriptions] dict of
    [_run_websocket_server] (id -> producer number), the producers, the
    observer tasks, both sides' states, the scope's connection params, the
    messages sent so far and the state of the message loop. *)
Record Session : Type := mkSession {
  subscriptions : list (string * nat);
  gens : list AsyncGen;
  observers : list Observer;
  client_state : WebSocketState;
  application_state : WebSocketState;
  connection_params : option PyVal;
  sent : list ServerMessage;
  loop : LoopStatus
}.

(** The session just after [await websocket.accept("graphql-ws")]. *)
Definition initial_session : Session :=
  mkSession [] [] [] CONNECTED CONNECTED None [] Looping.

Definition set_subscriptions (x : list (string * nat)) (s : Session) : Session :=
  mkSession x (gens s) (observers s) (client_state s) (application_state s)
    (connection_params s) (sent s) (loop s).
Definition set_gens (x : list AsyncGen) (s : Session) : Session :=
  mkSession (subscriptions s) x (observers s) (client_state s) (application_state s)
    (connection_params s) (sent s) (loop s).
Definition set_observers (x : list Observer) (s : Session) : Session :=
  mkSession (subscriptions s) (gens s) x (client_state s) (application_state s)
    (connection_params s) (sent s) (loop s).
Definition set_client_state (x : WebSocketState) (s : Session) : Session :=
  mkSession (subscriptions s) (gens s) (observers s) x (application_state s)
    (connection_params s) (sent s) (loop s).
Definition set_application_state (x : WebSocketState) (s : Session) : Session :=
  mkSession (subscriptions s) (gens s) (observers s) (client_state s) x
    (connection_params s) (sent s) (loop s).
Definition set_connection_params (x : option PyVal) (s : Session) : Session :=
  mkSession (subscriptions s) (gens s) (observers s) (client_state s)
    (application_state s) x (sent s) (loop s).
Definition set_sent (x : list ServerMessage) (s : Session) : Session :=
  mkSession (subscriptions s) (gens s) (observers s) (client_state s)
    (application_state s) (connection_params s) x (loop s).
Definition set_loop (x : LoopStatus) (s : Session) : Session :=
  mkSession (subscriptions s) (gens s) (observers s) (client_state s)
    (application_state s) (connection_params s) (sent s) x.

(** *** A state and exception monad for the coroutines *)

Definition M (A : Type) : Type := Session -> (A + Exn) * Session.

Definition ret {A} (a : A) : M A := fun s => (inl a, s).
Definition raise {A} (e : Exn) : M A := fun s => (inr e, s).
Definition bind {A B} (m : M A) (f : A -> M B) : M B :=
  fun s => match m s with
           | (inl a, s') => f a s'
           | (inr e, s') => (inr e, s')
           end.
Definition get : M Session := fun s => (inl s, s).
Definition modify (f : Session -> Session) : M unit := fun s => (inl tt, f s).
(** [try: m except Exception as e: h(e)] *)
Definition catch {A} (m : M A) (h : Exn -> M A) : M A :=
  fun s => match m s with
           | (inr e, s') => h e s'
           | r => r
           end.
Definition lift {A} (r : A + Exn) : M A := fun s => (r, s).

Notation "x <- m ;; k" := (bind m (fun x => k))
  (at level 61, m at next level, right associativity).
Notation "m ;; k" := (bind m (fun _ => k)) (at level 61, right associativity).

(** *** The starlette WebSocket operations *)

Definition is_open (s : Session) : bool :=
  negb (ws_state_eqb (client_state s) DISCONNECTED)
  && negb (ws_state_eqb (application_state s) DISCONNECTED).

(** [websocket.send_json(m)]: refused once the application side has closed. *)
Definition send_json (m : ServerMessage) : M unit :=
  fun s => match application_state s with
           | DISCONNECTED => (inr RuntimeError, s)
           | _ => (inl tt, set_sent (sent s ++ [m]) s)
           end.

(** [websocket.close()]: sends the close message, the application side is
    then disconnected. *)
Definition close : M unit :=
  fun s => match application_state s with
           | DISCONNECTED => (inr RuntimeError, s)
           | _ => (inl tt, set_application_state DISCONNECTED s)
           end.

Definition update_gen (n : nat) (f : AsyncGen -> AsyncGen) (s : Session) : Session :=
  match nth_error (gens s) n with
  | Some g => set_gens (list_set n (f g) (gens s)) s
  | None => s
  end.

Definition close_gen (g : AsyncGen) : AsyncGen :=
  mkGen (pending g) (failure g) true (exhausted g).

(** [await asyncgen.aclose()] *)
Definition aclose (n : nat) : M unit := modify (update_gen n close_gen).

Section Handlers.

Variable app : GraphQLApp.

(** *** [GraphQLApp._handle_query_over_ws] *)
Definition handle_query_over_ws (operation_id : string) (p : StartPayload)
  : M (list string) :=
  match sp_execute p with
  | ExecuteSync _ (e :: es) => ret (e :: es)
  | ExecuteSync data [] =>
      send_json (Data operation_id (result_payload app data [])) ;; ret []
  | ExecuteAwaitable data errors =>
      send_json (Data operation_id (result_payload app data errors)) ;; ret []
  | ExecuteRaise e => raise e
  end.

(** [subscriptions[operation_id] = asyncgen] for a new producer, and
    [asyncio.create_task(self._observe_subscription(...))]. *)
Definition register (operation_id : string) (results : list PyVal)
  (fail : option GenFailure) (s : Session) : Session :=
  let n := length (gens s) in
  set_observers (observers s ++ [mkObserver n operation_id false])
    (set_subscriptions (dict_set operation_id n (subscriptions s))
       (set_gens (gens s ++ [mkGen results fail false false]) s)).

(** *** [GraphQLApp._start_subscription] *)
Definition start_subscription (operation_id : string) (p : StartPayload)
  : M (list string) :=
  match sp_subscribe p with
  | SubscribeErrors e es => ret (e :: es)
  | SubscribeStream results fail =>
      modify (register operation_id results fail) ;; ret []
  | SubscribeRaise e => raise e
  end.

(** [query = data["query"]] and the two [data.get] calls. *)
Definition query_lookup (r : ParseResult) : unit + Exn :=
  match r with
  | QueryLookupFailed e => inr e
  | _ => inl tt
  end.

(** The [try] around [parse], [get_operation_ast] and [validate], which
    catches [GraphQLError] only. *)
Definition parse_errors (r : ParseResult) : M (list string) :=
  match r with
  | QueryLookupFailed e | ParseRaised e => raise e
  | ParseFailed e => ret [e]
  | Parsed _ validation_errors => ret validation_errors
  end.

(** *** [GraphQLApp._ws_on_start] *)
Definition ws_on_start (operation_id : string) (p : StartPayload) : M unit :=
  lift (query_lookup (sp_parse p)) ;;
  s <- get ;;
  _context_value <- lift (get_context_value app (PWebSocket (connection_params s))) ;;
  errors <- parse_errors (sp_parse p) ;;
  errors' <-
    match errors with
    | [] =>
        match sp_parse p with
        | Parsed (Some SUBSCRIPTION) _ => start_subscription operation_id p
        | _ => handle_query_over_ws operation_id p
        end
    | _ => ret errors
    end ;;
  match errors' with
  | [] => ret tt
  | e :: _ => send_json (Error operation_id (error_formatter app e))
  end.

(** *** [GraphQLApp._handle_websocket_message] *)
Definition handle_websocket_message (m : ClientMessage) : M unit :=
  match m with
  | ConnectionInit payload =>
      modify (set_connection_params (Some payload)) ;; send_json ConnectionAck
  | ConnectionTerminate => close
  | Start operation_id payload => ws_on_start operation_id payload
  | Stop operation_id =>
      s <- get ;;
      match dict_get operation_id (subscriptions s) with
      | Some n =>
          aclose n ;;
          modify (fun s => set_subscriptions (dict_delete operation_id (subscriptions s)) s)
      | None => ret tt
      end
  | Unknown _ => ret tt
  end.

(** *** The [finally] block of [_run_websocket_server]: [asyncio.gather] of
    [aclose()] over every registered producer; the block ends when all of
    them have finished. *)
Definition close_registered (s : Session) : Session :=
  fold_left (fun s '(_, n) => update_gen n close_gen s) (subscriptions s) s.

Definition finish (raised : option Exn) (s : Session) : Session :=
  set_loop (Ended raised) (close_registered s).

(** One iteration of the [while] loop once [receive_json] has returned [m]:
    the message is handled, then the loop condition is checked.  A
    [WebSocketDisconnect] raised by the handler is caught by
    [except WebSocketDisconnect: pass]: the [finally] block runs and the
    server returns normally.  Any other exception runs the [finally] block
    and escapes. *)
Definition loop_iteration (m : ClientMessage) (s : Session) : Session :=
  match handle_websocket_message m s with
  | (inr WebSocketDisconnect, s') => finish None s'
  | (inr e, s') => finish (Some e) s'
  | (inl _, s') => if is_open s' then s' else finish None s'
  end.

(** [receive_json] gets [websocket.disconnect]: the client side is
    disconnected and [WebSocketDisconnect] is raised, caught by the loop. *)
Definition loop_disconnect (s : Session) : Session :=
  finish None (set_client_state DISCONNECTED s).

(** *** [GraphQLApp._observe_subscription], one iteration of its task *)

(** After the [async for]: [complete] if both sides are still open. *)
Definition observer_tail (operation_id : string) : M unit :=
  s <- get ;;
  if is_open s then send_json (Complete operation_id) else ret tt.

(** The [except Exception] branch, then the tail. *)
Definition observer_except (operation_id : string) (message : string) : M unit :=
  send_json (Data operation_id
               (PDict [("errors", PList [error_formatter app message])])) ;;
  observer_tail operation_id.

Definition exn_str (e : Exn) : string :=
  match e with
  | ValueError m => m
  | UserError m => m
  | _ => "RuntimeError"
  end.

(** One step of the task: pull the next result and send it, or reach the end
    of the iteration and run what follows the loop.  The task is done when
    the coroutine returns or an exception escapes it. *)
Definition observer_body (o : Observer) (g : AsyncGen) : M bool :=
  let operation_id := obs_id o in
  let n := obs_gen o in
  if closed g then observer_tail operation_id ;; ret true
  else
    match pending g with
    | result :: rest =>
        modify (update_gen n (fun g => mkGen rest (failure g) (closed g) (exhausted g))) ;;
        catch (send_json (Data operation_id (PDict [("data", result)])) ;; ret false)
              (fun e => observer_except operation_id (exn_str e) ;; ret true)
    | [] =>
        modify (update_gen n (fun g => mkGen [] None (closed g) true)) ;;
        match failure g with
        | None => observer_tail operation_id ;; ret true
        | Some f => observer_except operation_id (failure_message f) ;; ret true
        end
    end.

Definition mark_done (k : nat) (s : Session) : Session :=
  match nth_error (observers s) k with
  | Some o => set_observers (list_set k (mkObserver (obs_gen o) (obs_id o) true)
                                      (observers s)) s
  | None => s
  end.

Definition observer_step (k : nat) (s : Session) : Session :=
  match nth_error (observers s) k with
  | Some o =>
      if obs_done o then s
      else match nth_error (gens s) (obs_gen o) with
           | Some g =>
               match observer_body o g s with
               | (inl false, s') => s'
               | (_, s') => mark_done k s'
               end
           | None => s
           end
  | None => s
  end.

(** *** Schedules *)

(** What happens next on a connection: the loop receives a message, the
    loop's [receive_json] sees the client disconnect, or observer task [k]
    runs one step. *)
Inductive Event : Type :=
| Receive (m : ClientMessage)
| ClientDisconnect
| ObserverStep (k : nat).

Definition step (s : Session) (ev : Event) : Session :=
  match ev with
  | Receive m => match loop s with Looping => loop_iteration m s | Ended _ => s end
  | ClientDisconnect => match loop s with Looping => loop_disconnect s | Ended _ => s end
  | ObserverStep k => observer_step k s
  end.

Definition run (evs : list Event) (s : Session) : Session := fold_left step evs s.

End Handlers.

End WS.

(** ** Session invariants *)

Module WSInv.
Import WS.

(** An action keeps a property of the session. *)
Definition Preserves {A} (P : Session -> Prop) (m : M A) : Prop :=
  forall s, P s -> P (snd (m s)).

(** Every registered id names an existing producer. *)
Definition registry_wf (s : Session) : Prop :=
  forall id n, In (id, n) (subscriptions s) -> n < length (gens s).

(** Every producer still registered has been closed. *)
Definition registry_closed (s : Session) : Prop :=
  forall id n, dict_get id (subscriptions s) = Some n ->
    exists g, nth_error (gens s) n = Some g /\ closed g = true.

Definition teardown_inv (s : Session) : Prop :=
  registry_wf s /\ (forall r, loop s = Ended r -> registry_closed s).

(** What an observer task cannot change: the registry, the loop, the number
    of producers and the producers already closed. *)
Definition observer_frame (subs : list (string * nat)) (l : LoopStatus)
  (gs : list AsyncGen) (s : Session) : Prop :=
  subscriptions s = subs /\ loop s = l /\ length (gens s) = length gs /\
  (forall n g, nth_error gs n = Some g -> closed g = true ->
     exists g', nth_error (gens s) n = Some g' /\ closed g' = true).

End WSInv.

(** ** The ASGI entry point: [GraphQLApp.__call__] *)

(** Responses the application sends: a [JSONResponse] of the HTTP handler,
    an [HTMLResponse], a bare [Response(status_code=...)], or a response
    built by a user's [on_get] handler.  A starlette [Response] defines
    neither [__bool__] nor [__len__], so every response is truthy. *)
Inductive Response : Type :=
| JSONResp (status_code : Z) (content : PyVal) (background : PyVal)
| HTMLResp (content : string)
| PlainResp (status_code : Z)
| UserResp (n : nat).

(** What calling an [on_get] handler gives: a response or [None], an
    exception, or an awaitable of one of them. *)
Inductive GetOut : Type :=
| GRet (r : option Response)
| GRaise (e : Exn)
| GAwaitable (r : option Response + Exn).

(** The parts of an ASGI scope the code reads: [scope["type"]], and for an
    HTTP scope the request's method and the request itself. *)
Record Scope : Type := mkScope {
  scope_type : string;
  scope_method : string;
  scope_request : Request
}.

(** What [__call__] ends with: a response sent, an exception escaping, or
    the WebSocket server run on the connection. *)
Inductive AsgiOutcome : Type :=
| Responded (r : Response)
| CallRaised (e : Exn)
| WebSocketServed.

(** [s.replace(old, new)] for a non-empty [old]: occurrences are replaced
    from left to right without overlapping; [skip] counts the characters of
    an occurrence just replaced. *)
Fixpoint replace_go (old new : string) (skip : nat) (s : string) : string :=
  match s with
  | EmptyString => EmptyString
  | String c r =>
      match skip with
      | S k => replace_go old new k r
      | O => if String.prefix old s
             then String.append new (replace_go old new (String.length old - 1) r)
             else String c (replace_go old new 0 r)
      end
  end.

Definition py_replace (old new s : string) : string := replace_go old new 0 s.

Section Asgi.

Variable json_loads : string -> option PyVal.
Variable graphql : PyVal -> PyVal -> PyVal -> PyVal -> (PyVal * list string) + Exn.
(** [json.dumps] *)
Variable json_dumps : PyVal -> string.
(** The module's page template [_PLAYGROUND_HTML]. *)
Variable PLAYGROUND_HTML : string.

(** [make_playground_handler(playground_options)]: the page is computed once,
    the handler returns it for every request. *)
Definition make_playground_handler (playground_options : PyVal) : Request -> GetOut :=
  let playground_options_str :=
    json_dumps (if truthy playground_options then playground_options else PDict []) in
  let content := py_replace "PLAYGROUND_OPTIONS" playground_options_str PLAYGROUND_HTML in
  fun _ => GRet (Some (HTMLResp content)).

(** The [on_get] attribute set by [GraphQLApp.__init__]. *)
Definition init_on_get (on_get : option (Request -> GetOut)) (playground : bool)
  : option (Request -> GetOut) :=
  match on_get with
  | None => if playground then Some (make_playground_handler PNone) else None
  | Some h => Some h
  end.

(** [GraphQLApp._get_on_get] *)
Definition get_on_get (handler : option (Request -> GetOut)) (request : Request)
  : option Response + Exn :=
  match handler with
  | None => inl None
  | Some h =>
      match h request with
      | GRet r => inl r
      | GRaise e => inr e
      | GAwaitable r => r
      end
  end.

Definition http_response (o : HttpOutcome) : option Response + Exn :=
  match o with
  | JSONResponse st c bg => inl (Some (JSONResp st c bg))
  | Raised e => inr e
  end.

(** [GraphQLApp.__call__]; [on_get] is the attribute set by [__init__]. *)
Definition call (app : GraphQLApp) (on_get : option (Request -> GetOut)) (scope : Scope)
  : AsgiOutcome :=
  if String.eqb (scope_type scope) "http" then
    let request := scope_request scope in
    let response :=
      if String.eqb (scope_method scope) "POST"
      then http_response (handle_http_request json_loads graphql app request)
      else if String.eqb (scope_method scope) "GET" then get_on_get on_get request
      else inl None in
    match response with
    | inr e => CallRaised e
    | inl None => Responded (PlainResp 405)
    | inl (Some r) => Responded r
    end
  else if String.eqb (scope_type scope) "websocket" then WebSocketServed
  else CallRaised (ValueError (String.append "Unsupported scope type: $" (scope_type scope))).

End Asgi.

(** ** Concrete configurations and inputs *)

Module Fixtures.
Import WS.

Definition format_error (message : string) : PyVal := PDict [("message", PStr message)].

(** [GraphQLApp(schema)]: no context hook, [context_value=None]. *)
Definition app_default : GraphQLApp := mkApp (CtxStatic PNone) format_error.

(** [GraphQLApp(schema, context_value={})]. *)
Definition app_empty_context : GraphQLApp := mkApp (CtxStatic (PDict [])) format_error.

(** A context hook that accepts a WebSocket only while the payload of its
    last [connection_init] is the string "token-ok". *)
Definition auth_context (conn : PyVal) : CallOut :=
  match conn with
  | PWebSocket (Some (PStr t)) =>
      if String.eqb t "token-ok" then CRet (PDict [("user", PStr "alice")])
      else CRaise (UserError "PermissionDenied")
  | _ => CRaise (UserError "PermissionDenied")
  end.

Definition app_auth : GraphQLApp := mkApp (CtxCallable auth_context) format_error.

Definition dq : string := String (ascii_of_nat 34) EmptyString.
Definition quoted (s : string) : string := String.append dq (String.append s dq).

(** [{"query":"mutation","variables":{"file":null}}] *)
Definition ops_text : string :=
  String.append "{" (String.append (quoted "query") (String.append ":"
  (String.append (quoted "mutation") (String.append ","
  (String.append (quoted "variables") (String.append ":{"
  (String.append (quoted "file") ":null}}"))))))).

(** [{"0":["variables.file"]}] *)
Definition map_text : string :=
  String.append "{" (String.append (quoted "0") (String.append ":["
  (String.append (quoted "variables.file") "]}"))).

(** A JSON decoder that knows the documents used below. *)
Definition json_loads_table (s : string) : option PyVal :=
  if String.eqb s "{}" then Some (PDict [])
  else if String.eqb s ops_text then
    Some (PDict [("query", PStr "mutation"); ("variables", PDict [("file", PNone)])])
  else if String.eqb s map_text then Some (PDict [("0", PList [PStr "variables.file"])])
  else None.

(** An engine whose resolvers always fail. *)
Definition graphql_with_error (query variables operation_name context : PyVal)
  : (PyVal * list string) + Exn := inl (PNone, ["resolver failed"]).

Definition req_json_empty : Request := mkRequest 0 (Some "application/json") "{}" None.

Definition req_json_mixed_case : Request :=
  mkRequest 0 (Some "Application/JSON; charset=utf-8") "{}" None.

(** A multipart request whose map names the part "0", which is absent. *)
Definition req_multipart_missing : Request :=
  mkRequest 0 (Some "multipart/form-data; boundary=x") ""
    (Some [("operations", FPField ops_text); ("map", FPField map_text)]).

(** The same request with the part "0" uploaded. *)
Definition req_multipart_ok : Request :=
  mkRequest 0 (Some "multipart/form-data; boundary=x") ""
    (Some [("operations", FPField ops_text); ("map", FPField map_text); ("0", FPFile 1)]).

(** [subscription { count(upto: 3) }]: a producer of 0, 1, 2. *)
Definition sub_count3 : StartPayload :=
  mkStart (Parsed (Some SUBSCRIPTION) []) (SubscribeStream [PInt 0; PInt 1; PInt 2] None)
    (ExecuteSync PNone []).

(** A subscription whose producer ends without yielding. *)
Definition sub_empty : StartPayload :=
  mkStart (Parsed (Some SUBSCRIPTION) []) (SubscribeStream [] None) (ExecuteSync PNone []).

(** [subscription { <invalid query> }] *)
Definition sub_invalid : StartPayload :=
  mkStart (ParseFailed "Syntax Error: Expected Name, found <EOF>.")
    (SubscribeErrors "unused" []) (ExecuteSync PNone []).

(** [{"0":1}]: a map whose entry is a number. *)
Definition bad_map_text : string :=
  String.append "{" (String.append (quoted "0") ":1}").

(** [{"query":"{ me }","variables":"x"}] *)
Definition bad_variables_text : string :=
  String.append "{" (String.append (quoted "query") (String.append ":"
  (String.append (quoted "{ me }") (String.append ","
  (String.append (quoted "variables") (String.append ":" (String.append (quoted "x") "}"))))))).

Definition json_loads_more (s : string) : option PyVal :=
  if String.eqb s bad_map_text then Some (PDict [("0", PInt 1)])
  else if String.eqb s bad_variables_text then
    Some (PDict [("query", PStr "{ me }"); ("variables", PStr "x")])
  else json_loads_table s.



Definition req_multipart_bad_map : Request :=
  mkRequest 0 (Some "multipart/form-data; boundary=x") ""
    (Some [("operations", FPField ops_text); ("map", FPField bad_map_text)]).

(** [GraphQLApp(schema, context_value="ctx")] *)
Definition app_string_context : GraphQLApp := mkApp (CtxStatic (PStr "ctx")) format_error.

(** [query { hello }], answered at once with "world". *)
Definition query_hello : StartPayload :=
  mkStart (Parsed (Some QUERY) []) (SubscribeErrors "unused" []) (ExecuteSync (PStr "world") []).

(** A subscription whose producer yields 0 and then raises [Exception("boom")]. *)
Definition sub_one_then_fail : StartPayload :=
  mkStart (Parsed (Some SUBSCRIPTION) []) (SubscribeStream [PInt 0] (Some (FailOther "boom")))
    (ExecuteSync PNone []).

(** A path segment of 4301 digits, beyond [sys.get_int_max_str_digits()]. *)
Definition digits_4301 : list ascii := repeat "1"%char 4301.

(** [{"0":["variables.file",1]}]: a map whose second path is a number. *)
Definition mixed_map_text : string :=
  String.append "{" (String.append (quoted "0") (String.append ":["
  (String.append (quoted "variables.file") ",1]}"))).

Definition json_loads_mixed (s : string) : option PyVal :=
  if String.eqb s mixed_map_text then Some (PDict [("0", PList [PStr "variables.file"; PInt 1])])
  else json_loads_table s.

(** A multipart request with that map and the part "0" uploaded. *)
Definition req_multipart_mixed_map : Request :=
  mkRequest 0 (Some "multipart/form-data; boundary=x") ""
    (Some [("operations", FPField ops_text); ("map", FPField mixed_map_text); ("0", FPFile 1)]).

(** A context hook that refuses every connection by raising
    [WebSocketDisconnect]. *)
Definition app_refuse : GraphQLApp :=
  mkApp (CtxCallable (fun _ => CRaise WebSocketDisconnect)) format_error.

End Fixtures.

(* ================================================================== *)
(** * Properties *)
(* ================================================================== *)

(** ** The file injector *)

Lemma dict_get_set_same {A} (s : string) (w : A) kv :
  dict_get s (dict_set s w kv) = Some w.
Proof.
  induction kv as [|[k v] r IH]; simpl.
  - now rewrite String.eqb_refl.
  - destruct (String.eqb_spec s k) as [->|Hne]; simpl.
    + now rewrite String.eqb_refl.
    + destruct (String.eqb_spec s k); [contradiction|exact IH].
Qed.

Lemma dict_set_get_same {A} (s : string) (c : A) kv :
  dict_get s kv = Some c -> dict_set s c kv = kv.
Proof.
  induction kv as [|[k v] r IH]; simpl; [discriminate|].
  destruct (String.eqb s k); [congruence|].
  intros H; now rewrite IH.
Qed.

Lemma list_set_length {A} (i : nat) (v : A) l : length (list_set i v l) = length l.
Proof.
  revert i; induction l as [|x r IH]; intros [|i]; simpl; auto.
Qed.

Lemma nth_error_list_set_same {A} (i : nat) (v : A) l :
  i < length l -> nth_error (list_set i v l) i = Some v.
Proof.
  revert i; induction l as [|x r IH]; intros [|i] Hi; simpl in *; try lia; auto.
  apply IH; lia.
Qed.

Lemma list_set_nth_same {A} (i : nat) (c : A) l :
  nth_error l i = Some c -> list_set i c l = l.
Proof.
  revert i; induction l as [|x r IH]; intros [|i] H; simpl in *; try discriminate.
  - congruence.
  - now rewrite IH.
Qed.

(** Writing back the value just read leaves a container unchanged. *)
Lemma setitem_getitem_same t k c :
  getitem t k = inl c -> setitem t k c = inl t.
Proof.
  destruct t as [|b|z0|s|l|kv|h|n|p|], k as [z|s'];
    simpl; try discriminate; intros H.
  - reflexivity.
  - destruct (norm_index z (length l)) as [i|] eqn:E; [|discriminate].
    destruct (nth_error l i) eqn:E2; [|discriminate].
    injection H as ->. now rewrite (list_set_nth_same _ _ _ E2).
  - destruct (dict_get s' kv) eqn:E; [|discriminate].
    injection H as ->. now rewrite (dict_set_get_same _ _ _ E).
Qed.

(** Assigning into a dict or a list at a key that could be read stores the
    value there. *)
Lemma setitem_getitem_store t k c w :
  getitem t k = inl c -> (forall s, t <> PStr s) ->
  exists t', setitem t k w = inl t' /\ getitem t' k = inl w.
Proof.
  intros H Hs; destruct t as [|b|z0|s|l|kv|h|n|p|], k as [z|s'];
    simpl in *; try discriminate.
  - exfalso; exact (Hs s eq_refl).
  - destruct (norm_index z (length l)) as [i|] eqn:E; [|discriminate].
    destruct (nth_error l i) eqn:E2; [|discriminate].
    eexists; split; [reflexivity|]; simpl.
    rewrite list_set_length, E, nth_error_list_set_same; [reflexivity|].
    apply nth_error_Some; congruence.
  - eexists; split; [reflexivity|]; simpl. now rewrite dict_get_set_same.
Qed.

(** Nothing reached through a string is [None]. *)
Lemma get_path_str_not_none segs : forall s, get_path (PStr s) segs <> inl PNone.
Proof.
  induction segs as [|seg rest IH]; intros s; simpl; [discriminate|].
  destruct (to_key seg) as [z|k]; simpl; [|discriminate].
  destruct (norm_index z _) as [i|]; [|discriminate].
  destruct (nth_error _ i); [apply IH|discriminate].
Qed.

Lemma py_split_not_nil sep s : py_split sep s <> [].
Proof.
  induction s as [|c r IH]; simpl; [discriminate|].
  destruct (py_split sep r); [contradiction|].
  destruct (Ascii.eqb c sep); discriminate.
Qed.

Lemma inject_file_to_operations_path file segs : segs <> [] -> forall t,
  match get_path t segs with
  | inl PNone =>
      exists t', inject_file_to_operations t file segs = inl t'
                 /\ get_path t' segs = inl file
  | inl _ => inject_file_to_operations t file segs = inl t
  | inr e => inject_file_to_operations t file segs = inr e
  end.
Proof.
  induction segs as [|seg rest IH]; intros Hne t; [congruence|].
  destruct rest as [|seg2 rest2].
  - simpl. destruct (getitem t (to_key seg)) as [c|e] eqn:G; [|reflexivity].
    destruct c; try reflexivity.
    assert (Hs : forall s, t <> PStr s).
    { intros s ->. simpl in G. destruct (to_key seg); [|discriminate].
      destruct (norm_index _ _); [|discriminate].
      destruct (nth_error _ _); discriminate. }
    destruct (setitem_getitem_store _ _ _ file G Hs) as [t' [E1 E2]].
    exists t'; split; [exact E1|]. simpl. now rewrite E2.
  - specialize (IH ltac:(discriminate)).
    change (get_path t (seg :: seg2 :: rest2)) with
      (match getitem t (to_key seg) with
       | inr e => inr e | inl child => get_path child (seg2 :: rest2) end).
    change (inject_file_to_operations t file (seg :: seg2 :: rest2)) with
      (match getitem t (to_key seg) with
       | inr e => inr e
       | inl child =>
           match inject_file_to_operations child file (seg2 :: rest2) with
           | inr e => inr e
           | inl child' => setitem t (to_key seg) child'
           end
       end).
    destruct (getitem t (to_key seg)) as [c|e] eqn:G; [|reflexivity].
    specialize (IH c).
    destruct (get_path c (seg2 :: rest2)) as [v|e] eqn:Gp.
    + destruct v;
        try (rewrite IH; exact (setitem_getitem_same _ _ _ G)).
      destruct IH as [c' [E1 E2]]. rewrite E1.
      assert (Hs : forall s, t <> PStr s).
      { intros s ->. simpl in G. destruct (to_key seg); [|discriminate].
        destruct (norm_index _ _); [|discriminate].
        destruct (nth_error _ _); [|discriminate].
        injection G as <-. exact (get_path_str_not_none _ _ Gp). }
      destruct (setitem_getitem_store _ _ _ c' G Hs) as [t' [S1 S2]].
      exists t'; split; [exact S1|].
      change (get_path t' (seg :: seg2 :: rest2)) with
        (match getitem t' (to_key seg) with
         | inr e => inr e | inl child => get_path child (seg2 :: rest2) end).
      now rewrite S2.
    + now rewrite IH.
Qed.

(** C5: for every path string, the injector splits it on '.', descends
    through the operations tree using a segment that parses as an integer
    as a sequence index and any other segment as an object key; when the
    value found at the final segment is null it stores the file handle
    there, when it is non-null the tree is returned unchanged and nothing is
    raised. *)
Theorem inject_file_to_operations_correct (operations file : PyVal) (path : string) :
  let segs := py_split "." path in
  match get_path operations segs with
  | inl PNone =>
      exists operations', inject_file_to_operations operations file segs = inl operations'
                          /\ get_path operations' segs = inl file
  | inl _ => inject_file_to_operations operations file segs = inl operations
  | inr e => inject_file_to_operations operations file segs = inr e
  end.
Proof.
  intros segs. apply inject_file_to_operations_path, py_split_not_nil.
Qed.

(** ** The HTTP side *)

Lemma inject_map_app ops files pre post :
  inject_map ops files (pre ++ post) =
  match inject_map ops files pre with
  | inl ops' => inject_map ops' files post
  | inr e => inr e
  end.
Proof.
  revert ops; induction pre as [|[name paths] r IH]; intros ops; simpl; [reflexivity|].
  destruct (iterate paths); [|reflexivity].
  destruct (inject_paths ops files name l); [apply IH|reflexivity].
Qed.

(** C6: when the map lists a path for a field name that has no uploaded
    part, and the entries before it inject cleanly, the extraction raises
    [KeyError] (a lookup error, not a [ValueError]), and the HTTP handler
    lets it escape instead of answering 400. *)
Theorem missing_upload_part_uncaught json_loads graphql app r body ops pre name paths
  p ps post ops' :
  header_content_type r = "multipart/form-data" ->
  req_form r = Some body ->
  form_json json_loads body "operations" = Some ops ->
  is_dict_or_list ops = true ->
  form_json json_loads body "map" = Some (PDict (pre ++ (name, paths) :: post)) ->
  iterate paths = inl (PStr p :: ps) ->
  dict_get name (upload_files body) = None ->
  inject_map ops (upload_files body) pre = inl ops' ->
  get_operation_from_request json_loads r = inr KeyError /\
  handle_http_request json_loads graphql app r = Raised KeyError.
Proof.
  intros Hct Hform Hops Hdl Hmap Hit Hmiss Hpre.
  assert (E : get_operation_from_request json_loads r = inr KeyError).
  { unfold get_operation_from_request. rewrite Hct. simpl.
    unfold get_operation_from_multipart. rewrite Hform, Hops, Hdl. simpl.
    rewrite Hmap, inject_map_app, Hpre. simpl. rewrite Hit. simpl.
    now rewrite Hmiss. }
  split; [exact E|]. unfold handle_http_request. now rewrite E.
Qed.

(** Witness: the multipart request naming the absent part "0". *)
Lemma missing_upload_part_uncaught_witness :
  get_operation_from_request Fixtures.json_loads_table Fixtures.req_multipart_missing
    = inr KeyError /\
  handle_http_request Fixtures.json_loads_table Fixtures.graphql_with_error
    Fixtures.app_default Fixtures.req_multipart_missing = Raised KeyError.
Proof.
  apply (missing_upload_part_uncaught Fixtures.json_loads_table Fixtures.graphql_with_error
           Fixtures.app_default Fixtures.req_multipart_missing
           [("operations", FPField Fixtures.ops_text); ("map", FPField Fixtures.map_text)]
           (PDict [("query", PStr "mutation"); ("variables", PDict [("file", PNone)])])
           [] "0" (PList [PStr "variables.file"]) "variables.file" [] []
           (PDict [("query", PStr "mutation"); ("variables", PDict [("file", PNone)])]));
    vm_compute; reflexivity.
Defined.

(** C7 (as the code does it): the extractor compares the part of the
    Content-Type header before the first ';' exactly, letter case and
    whitespace included, with "application/json" and "multipart/form-data";
    any other value fails with the content-type [ValueError]. *)
Theorem content_type_dispatch_exact json_loads r :
  (header_content_type r = "application/json" ->
     get_operation_from_request json_loads r =
     match json_loads (req_body r) with
     | Some v => inl v
     | None => inr (ValueError "Request body is not a valid JSON")
     end) /\
  (header_content_type r = "multipart/form-data" ->
     get_operation_from_request json_loads r =
     get_operation_from_multipart json_loads (req_form r)) /\
  (header_content_type r <> "application/json" ->
   header_content_type r <> "multipart/form-data" ->
     get_operation_from_request json_loads r = inr (ValueError MSG_BAD_CONTENT_TYPE)).
Proof.
  unfold get_operation_from_request.
  split; [|split].
  - intros H; now rewrite H.
  - intros H; now rewrite H.
  - intros H1 H2.
    destruct (String.eqb_spec (header_content_type r) "application/json"); [contradiction|].
    destruct (String.eqb_spec (header_content_type r) "multipart/form-data"); [contradiction|].
    reflexivity.
Qed.

(** Witness: "Application/JSON; charset=utf-8" takes the error branch. *)
Lemma content_type_dispatch_exact_witness :
  get_operation_from_request Fixtures.json_loads_table Fixtures.req_json_mixed_case
    = inr (ValueError MSG_BAD_CONTENT_TYPE).
Proof.
  destruct (content_type_dispatch_exact Fixtures.json_loads_table Fixtures.req_json_mixed_case)
    as [_ [_ H]].
  apply H; vm_compute; discriminate.
Defined.

(** C7 fails: a Content-Type differing from application/json only in
    letter case is rejected with the content-type error. *)
Lemma content_type_mixed_case_rejected :
  header_content_type Fixtures.req_json_mixed_case = "Application/JSON" /\
  get_operation_from_request Fixtures.json_loads_table Fixtures.req_json_mixed_case
    = inr (ValueError MSG_BAD_CONTENT_TYPE).
Proof. split; reflexivity. Qed.

(** ** The context builder *)

(** C9 (as the code does it): a callable source is called with the
    connection and its result awaited when awaitable; a static value is
    returned when it is truthy; when it is [None] or any other falsy value
    (such as an empty dict) a fresh default context holding the connection
    under "request" and a [BackgroundTasks] under "background" is returned
    instead. *)
Theorem get_context_value_cases app conn :
  (forall f v, context_value app = CtxCallable f ->
     (f conn = CRet v \/ f conn = CAwaitable (inl v)) ->
     get_context_value app conn = inl v) /\
  (forall f e, context_value app = CtxCallable f ->
     (f conn = CRaise e \/ f conn = CAwaitable (inr e)) ->
     get_context_value app conn = inr e) /\
  (forall v, context_value app = CtxStatic v -> truthy v = true ->
     get_context_value app conn = inl v) /\
  (forall v, context_value app = CtxStatic v -> truthy v = false ->
     exists ctx, get_context_value app conn = inl ctx /\ ctx <> v /\
       py_get ctx "request" = inl conn /\ py_get ctx "background" = inl PBackground).
Proof.
  unfold get_context_value.
  split; [|split; [|split]].
  - intros f v -> [H|H]; now rewrite H.
  - intros f e -> [H|H]; now rewrite H.
  - intros v -> H; now rewrite H.
  - intros v -> H; rewrite H.
    exists (default_context conn); repeat split.
    intros E; rewrite <- E in H; discriminate H.
Qed.

(** Witness: [context_value={}]. *)
Lemma get_context_value_cases_witness :
  exists ctx, get_context_value Fixtures.app_empty_context (PHttpConn 0) = inl ctx /\
    ctx <> PDict [] /\
    py_get ctx "request" = inl (PHttpConn 0) /\ py_get ctx "background" = inl PBackground.
Proof.
  destruct (get_context_value_cases Fixtures.app_empty_context (PHttpConn 0))
    as [_ [_ [_ H]]].
  apply H; reflexivity.
Defined.

(** C9 fails: a static empty dict is not returned; the default context is. *)
Lemma empty_static_context_replaced :
  get_context_value Fixtures.app_empty_context (PHttpConn 0)
    = inl (default_context (PHttpConn 0)) /\
  default_context (PHttpConn 0) <> PDict [].
Proof. split; [reflexivity|discriminate]. Qed.

(** ** The HTTP handler *)

(** The handler on an extracted dict with a "query" entry. *)
Lemma handle_http_request_query json_loads graphql app r kv q :
  get_operation_from_request json_loads r = inl (PDict kv) ->
  dict_get "query" kv = Some q ->
  handle_http_request json_loads graphql app r =
  let variable_values := match dict_get "variables" kv with Some x => x | None => PNone end in
  let operation_name := match dict_get "operationName" kv with Some x => x | None => PNone end in
  match get_context_value app (PHttpConn (req_id r)) with
  | inr e => Raised e
  | inl ctx =>
      match graphql q variable_values operation_name ctx with
      | inr e => Raised e
      | inl (data, errors) =>
          match py_get ctx "background" with
          | inr e => Raised e
          | inl bg => JSONResponse 200 (result_payload app data errors) bg
          end
      end
  end.
Proof.
  intros Hop Hq. unfold handle_http_request. rewrite Hop. simpl. now rewrite Hq.
Qed.




(** ** The WebSocket session *)

Import WS WSInv.

Section Preservation.

Variable P : Session -> Prop.

Lemma pres_ret {A} (a : A) : Preserves P (ret a).
Proof. intros s H; exact H. Qed.

Lemma pres_raise {A} (e : Exn) : Preserves P (@raise A e).
Proof. intros s H; exact H. Qed.

Lemma pres_lift {A} (r : A + Exn) : Preserves P (lift r).
Proof. intros s H; exact H. Qed.

Lemma pres_get : Preserves P get.
Proof. intros s H; exact H. Qed.

Lemma pres_modify f : (forall s, P s -> P (f s)) -> Preserves P (modify f).
Proof. intros Hf s H; exact (Hf s H). Qed.

Lemma pres_bind {A B} (m : M A) (f : A -> M B) :
  Preserves P m -> (forall a, Preserves P (f a)) -> Preserves P (bind m f).
Proof.
  intros Hm Hf s H. unfold bind. specialize (Hm s H).
  destruct (m s) as [[a|e] s'] eqn:E; simpl in *; [apply Hf|]; exact Hm.
Qed.

Lemma pres_catch {A} (m : M A) (h : Exn -> M A) :
  Preserves P m -> (forall e, Preserves P (h e)) -> Preserves P (catch m h).
Proof.
  intros Hm Hh s H. unfold catch. specialize (Hm s H).
  destruct (m s) as [[a|e] s'] eqn:E; simpl in *; [exact Hm|apply Hh; exact Hm].
Qed.

Lemma pres_send m : (forall x s, P s -> P (set_sent x s)) -> Preserves P (send_json m).
Proof.
  intros Hs s H. unfold send_json. destruct (application_state s); simpl; auto.
Qed.

Lemma pres_close :
  (forall x s, P s -> P (set_application_state x s)) -> Preserves P close.
Proof.
  intros Hs s H. unfold close. destruct (application_state s); simpl; auto.
Qed.

End Preservation.

Create HintDb pres.
#[export] Hint Resolve pres_ret pres_raise pres_lift pres_get pres_bind pres_catch : pres.

Lemma nth_error_list_set {A} (i j : nat) (v : A) l :
  nth_error (list_set i v l) j =
  if Nat.eqb i j then match nth_error l j with Some _ => Some v | None => None end
  else nth_error l j.
Proof.
  revert i j; induction l as [|x r IH]; intros [|i] [|j]; simpl; auto;
    destruct (Nat.eqb _ _); reflexivity.
Qed.

Lemma update_gen_fields n f s :
  subscriptions (update_gen n f s) = subscriptions s /\
  loop (update_gen n f s) = loop s /\
  observers (update_gen n f s) = observers s /\
  sent (update_gen n f s) = sent s /\
  is_open (update_gen n f s) = is_open s /\
  length (gens (update_gen n f s)) = length (gens s) /\
  (forall m, nth_error (gens (update_gen n f s)) m =
     if Nat.eqb n m then option_map f (nth_error (gens s) m) else nth_error (gens s) m).
Proof.
  unfold update_gen. destruct (nth_error (gens s) n) as [g|] eqn:E; simpl.
  - repeat split; [apply list_set_length|].
    intros m. rewrite nth_error_list_set.
    destruct (Nat.eqb_spec n m) as [<-|]; [now rewrite E|reflexivity].
  - repeat split. intros m.
    destruct (Nat.eqb_spec n m) as [<-|]; [now rewrite E|reflexivity].
Qed.

Lemma dict_get_set {A} (k k' : string) (v : A) kv :
  dict_get k (dict_set k' v kv) = if String.eqb k k' then Some v else dict_get k kv.
Proof.
  induction kv as [|[k0 v0] r IH]; simpl.
  - destruct (String.eqb k k'); reflexivity.
  - destruct (String.eqb_spec k' k0) as [<-|Hne]; simpl.
    + destruct (String.eqb k k'); reflexivity.
    + destruct (String.eqb_spec k k0) as [->|]; [|exact IH].
      destruct (String.eqb_spec k0 k') as [->|]; [contradiction|reflexivity].
Qed.

Lemma dict_get_delete {A} (k k' : string) (kv : list (string * A)) :
  dict_get k (dict_delete k' kv) = if String.eqb k k' then None else dict_get k kv.
Proof.
  unfold dict_delete.
  induction kv as [|[k0 v0] r IH]; simpl.
  - destruct (String.eqb k k'); reflexivity.
  - destruct (String.eqb_spec k' k0) as [<-|Hne]; simpl.
    + rewrite IH. destruct (String.eqb_spec k k') as [->|]; [reflexivity|].
      destruct (String.eqb_spec k k'); [contradiction|reflexivity].
    + destruct (String.eqb_spec k k0) as [->|]; [|exact IH].
      destruct (String.eqb_spec k0 k') as [->|]; [contradiction|reflexivity].
Qed.

Lemma dict_get_in {A} (k : string) (v : A) kv : dict_get k kv = Some v -> In (k, v) kv.
Proof.
  induction kv as [|[k0 v0] r IH]; simpl; [discriminate|].
  destruct (String.eqb_spec k k0) as [->|]; [injection 1 as ->; auto|auto].
Qed.

Ltac pres_auto :=
  repeat match goal with
         | |- Preserves _ (bind _ _) => apply pres_bind; [|intros ?]
         | |- Preserves _ (ret _) => apply pres_ret
         | |- Preserves _ (raise _) => apply pres_raise
         | |- Preserves _ (lift _) => apply pres_lift
         | |- Preserves _ get => apply pres_get
         | |- Preserves _ (catch _ _) => apply pres_catch; [|intros ?]
         end.

(** Every message handler of the loop keeps any property that the state
    updates it performs keep. *)
Lemma handle_preserves app (P : Session -> Prop) m :
  (forall x s, P s -> P (set_sent x s)) ->
  (forall x s, P s -> P (set_application_state x s)) ->
  (forall x s, P s -> P (set_connection_params x s)) ->
  (forall n f s, P s -> P (update_gen n f s)) ->
  (forall id s, P s -> P (set_subscriptions (dict_delete id (subscriptions s)) s)) ->
  (forall id rs fl s, P s -> P (register id rs fl s)) ->
  Preserves P (handle_websocket_message app m).
Proof.
  intros Hsent Happ Hpar Hgen Hdel Hreg.
  destruct m as [payload| |id p|id|ty]; unfold handle_websocket_message.
  - pres_auto; [apply pres_modify; auto|apply pres_send; auto].
  - apply pres_close; auto.
  - unfold ws_on_start. pres_auto.
    + unfold parse_errors. destruct (sp_parse p); pres_auto.
    + match goal with |- Preserves _ (match ?e with _ => _ end) => destruct e end.
      * destruct (sp_parse p) as [e0|e0|e0|[[]|] verrs]; cbv beta iota;
          unfold start_subscription, handle_query_over_ws;
          try destruct (sp_subscribe p); try destruct (sp_execute p);
          repeat match goal with
                 | |- Preserves _ (match ?e with _ => _ end) => destruct e
                 end;
          pres_auto; try (apply pres_send; auto); try (apply pres_modify; auto).
      * pres_auto.
    + match goal with |- Preserves _ (match ?e with _ => _ end) => destruct e end;
        pres_auto; apply pres_send; auto.
  - pres_auto.
    match goal with |- Preserves _ (match ?e with _ => _ end) => destruct e end;
      pres_auto; unfold aclose; apply pres_modify; auto.
  - pres_auto.
Qed.

Lemma in_dict_set {A} (k k' : string) (v v' : A) kv :
  In (k', v') (dict_set k v kv) -> (k' = k /\ v' = v) \/ In (k', v') kv.
Proof.
  induction kv as [|[k0 v0] r IH]; simpl.
  - intros [H|[]]; injection H as -> ->; auto.
  - destruct (String.eqb_spec k k0) as [->|]; simpl.
    + intros [H|H]; [injection H as -> ->; auto|auto].
    + intros [H|H]; [auto|destruct (IH H) as [?|?]; auto].
Qed.

Lemma in_dict_delete {A} (k k' : string) (v' : A) kv :
  In (k', v') (dict_delete k kv) -> In (k', v') kv.
Proof. unfold dict_delete. intros H; apply filter_In in H; tauto. Qed.

Lemma handle_preserves_wf app m : Preserves registry_wf (handle_websocket_message app m).
Proof.
  apply handle_preserves; unfold registry_wf; simpl; auto.
  - intros n f s H id k Hk.
    destruct (update_gen_fields n f s) as [Es [_ [_ [_ [_ [El _]]]]]].
    rewrite El. rewrite Es in Hk. eauto.
  - intros id s H id' k Hk. apply in_dict_delete in Hk. eauto.
  - intros id rs fl s H id' k Hk. unfold register in Hk; simpl in Hk.
    unfold register; simpl. rewrite length_app; simpl.
    destruct (in_dict_set _ _ _ _ _ Hk) as [[_ ->]|Hin]; [lia|].
    specialize (H _ _ Hin); lia.
Qed.

Lemma handle_preserves_loop app m l :
  Preserves (fun s => loop s = l) (handle_websocket_message app m).
Proof.
  apply handle_preserves; simpl; auto.
  intros n f s H. destruct (update_gen_fields n f s) as [_ [El _]]. congruence.
Qed.

Lemma close_registered_fold (L : list (string * nat)) : forall s,
  (forall id n, In (id, n) L -> n < length (gens s)) ->
  let s' := fold_left (fun s '(_, n) => update_gen n close_gen s) L s in
  subscriptions s' = subscriptions s /\ loop s' = loop s /\
  length (gens s') = length (gens s) /\
  (forall id n, In (id, n) L -> exists g, nth_error (gens s') n = Some g /\ closed g = true) /\
  (forall n g, nth_error (gens s) n = Some g -> closed g = true ->
     exists g', nth_error (gens s') n = Some g' /\ closed g' = true).
Proof.
  induction L as [|[id0 n0] L IH]; intros s HL; simpl.
  - repeat split; eauto. intros id n [].
  - set (s1 := update_gen n0 close_gen s).
    destruct (update_gen_fields n0 close_gen s) as [E1 [E2 [_ [_ [_ [E3 E4]]]]]].
    fold s1 in E1, E2, E3, E4.
    assert (HL1 : forall id n, In (id, n) L -> n < length (gens s1)).
    { intros id n Hin; rewrite E3; eapply HL; right; exact Hin. }
    destruct (IH s1 HL1) as [F1 [F2 [F3 [F4 F5]]]].
    repeat split.
    + now rewrite F1.
    + now rewrite F2.
    + now rewrite F3.
    + intros id n [Heq|Hin]; [|eauto].
      injection Heq as <- <-.
      assert (Hlt : n0 < length (gens s)) by (eapply HL; left; reflexivity).
      destruct (nth_error (gens s) n0) as [g|] eqn:G;
        [|apply nth_error_None in G; lia].
      apply (F5 n0 (close_gen g)); [|reflexivity].
      rewrite E4, Nat.eqb_refl, G. reflexivity.
    + intros n g G Hc. apply (F5 n (if Nat.eqb n0 n then close_gen g else g)).
      * rewrite E4. destruct (Nat.eqb n0 n); rewrite G; reflexivity.
      * destruct (Nat.eqb n0 n); [reflexivity|exact Hc].
Qed.

(** The [finally] block closes every registered producer. *)
Lemma finish_closes_registered r s :
  registry_wf s -> teardown_inv (finish r s) /\ subscriptions (finish r s) = subscriptions s.
Proof.
  intros Hwf. unfold finish, close_registered.
  destruct (close_registered_fold (subscriptions s) s Hwf) as [F1 [_ [F3 [F4 _]]]].
  set (s' := fold_left _ (subscriptions s) s) in *.
  unfold teardown_inv, registry_wf, registry_closed; cbn.
  rewrite F1. split; [split|reflexivity].
  - intros id n Hin. rewrite F3. eauto.
  - intros r' _ id n Hn. apply dict_get_in in Hn. eauto.
Qed.

Lemma frame_update_gen subs l gs n f s :
  (forall g, closed (f g) = closed g) ->
  observer_frame subs l gs s -> observer_frame subs l gs (update_gen n f s).
Proof.
  intros Hf [H1 [H2 [H3 H4]]].
  destruct (update_gen_fields n f s) as [E1 [E2 [_ [_ [_ [E3 E4]]]]]].
  repeat split; try congruence.
  intros m g G Hc. destruct (H4 m g G Hc) as [g' [G' Hc']].
  rewrite E4, G'. destruct (Nat.eqb n m); simpl; [|eauto].
  exists (f g'); split; [reflexivity|congruence].
Qed.

Lemma observer_tail_frame subs l gs id :
  Preserves (observer_frame subs l gs) (observer_tail id).
Proof.
  unfold observer_tail. pres_auto.
  match goal with |- Preserves _ (if ?b then _ else _) => destruct b end;
    [apply pres_send; intros x s [? [? [? ?]]]; repeat split; auto|apply pres_ret].
Qed.

Lemma observer_body_frame app subs l gs o g :
  Preserves (observer_frame subs l gs) (observer_body app o g).
Proof.
  assert (Hexc : forall id msg, Preserves (observer_frame subs l gs) (observer_except app id msg)).
  { intros id msg. unfold observer_except. pres_auto; [|apply observer_tail_frame].
    apply pres_send; intros x s [? [? [? ?]]]; repeat split; auto. }
  unfold observer_body.
  destruct (closed g); [pres_auto; apply observer_tail_frame|].
  destruct (pending g) as [|result rest]; pres_auto.
  - apply pres_modify; intros s; apply frame_update_gen; reflexivity.
  - destruct (failure g); pres_auto; [apply Hexc|apply observer_tail_frame].
  - apply pres_modify; intros s; apply frame_update_gen; reflexivity.
  - apply pres_send; intros x s [? [? [? ?]]]; repeat split; auto.
  - apply Hexc.
Qed.

Lemma observer_step_frame app k s :
  observer_frame (subscriptions s) (loop s) (gens s) (observer_step app k s).
Proof.
  assert (Hrefl : observer_frame (subscriptions s) (loop s) (gens s) s)
    by (repeat split; eauto).
  unfold observer_step.
  destruct (nth_error (observers s) k) as [o|] eqn:Ho; [|exact Hrefl].
  destruct (obs_done o); [exact Hrefl|].
  destruct (nth_error (gens s) (obs_gen o)) as [g|]; [|exact Hrefl].
  pose proof (observer_body_frame app (subscriptions s) (loop s) (gens s) o g s Hrefl) as Hb.
  destruct (observer_body app o g s) as [[[|]|e] s'] eqn:E; simpl in Hb;
    try exact Hb;
    unfold mark_done; destruct (nth_error (observers s') k); exact Hb.
Qed.

(** Every event keeps the teardown invariant. *)
Lemma step_teardown_inv app s ev : teardown_inv s -> teardown_inv (step app s ev).
Proof.
  intros Hinv. pose proof Hinv as [Hwf Hcl]. destruct ev as [m| |k]; simpl.
  - destruct (loop s) eqn:L; [|exact Hinv].
    unfold loop_iteration.
    pose proof (handle_preserves_wf app m s Hwf) as Hwf'.
    pose proof (handle_preserves_loop app m Looping s L) as L'.
    destruct (handle_websocket_message app m s) as [[u|e] s'] eqn:E; simpl in Hwf', L'.
    + destruct (is_open s'); [|exact (proj1 (finish_closes_registered _ _ Hwf'))].
      split; [exact Hwf'|]. intros r Hr; congruence.
    + destruct e; exact (proj1 (finish_closes_registered _ _ Hwf')).
  - destruct (loop s); [|exact Hinv].
    exact (proj1 (finish_closes_registered None (set_client_state DISCONNECTED s) Hwf)).
  - destruct (observer_step_frame app k s) as [F1 [F2 [F3 F4]]].
    split.
    + intros id n Hin. rewrite F3. rewrite F1 in Hin. eauto.
    + intros r Hr id n Hn. rewrite F1 in Hn. rewrite F2 in Hr.
      destruct (Hcl r Hr id n Hn) as [g [G Hc]]. eauto.
Qed.

Lemma run_teardown_inv app evs : forall s, teardown_inv s -> teardown_inv (run app evs s).
Proof.
  induction evs as [|ev evs IH]; intros s H; simpl; [exact H|].
  apply IH, step_teardown_inv, H.
Qed.

Lemma initial_teardown_inv : teardown_inv initial_session.
Proof. split; [intros id n []|intros r Hr; discriminate]. Qed.

Lemma handle_stop_registered app s id n :
  dict_get id (subscriptions s) = Some n ->
  handle_websocket_message app (Stop id) s =
  (inl tt, set_subscriptions (dict_delete id (subscriptions s)) (update_gen n close_gen s)).
Proof.
  intros Hn. unfold handle_websocket_message, bind, get. rewrite Hn.
  unfold aclose, modify.
  destruct (update_gen_fields n close_gen s) as [E _]. now rewrite E.
Qed.

Lemma handle_stop_unregistered app s id :
  dict_get id (subscriptions s) = None ->
  handle_websocket_message app (Stop id) s = (inl tt, s).
Proof.
  intros Hn. unfold handle_websocket_message, bind, get. now rewrite Hn.
Qed.

Lemma step_receive app s m :
  loop s = Looping -> step app s (Receive m) = loop_iteration app m s.
Proof. intros L. simpl. now rewrite L. Qed.

Lemma close_registered_subscriptions (L : list (string * nat)) : forall s,
  subscriptions (fold_left (fun s '(_, n) => update_gen n close_gen s) L s) =
  subscriptions s.
Proof.
  induction L as [|[id0 n0] L IH]; intros s; simpl; [reflexivity|].
  rewrite IH. exact (proj1 (update_gen_fields n0 close_gen s)).
Qed.

Lemma start_subscription_registers app s id p results fl :
  loop s = Looping -> is_open s = true ->
  (exists c, get_context_value app (PWebSocket (connection_params s)) = inl c) ->
  sp_parse p = Parsed (Some SUBSCRIPTION) [] ->
  sp_subscribe p = SubscribeStream results fl ->
  step app s (Receive (Start id p)) = register id results fl s.
Proof.
  intros L Ho [c Hc] Hp Hsub.
  assert (Hr : is_open (register id results fl s) = true)
    by (unfold register, is_open in *; simpl; exact Ho).
  rewrite (step_receive _ _ _ L). unfold loop_iteration, handle_websocket_message.
  unfold ws_on_start, bind, get, lift. rewrite Hp. simpl. rewrite Hc.
  unfold start_subscription. rewrite Hsub. unfold modify, ret, bind. cbv beta iota.
  now rewrite Hr.
Qed.

Lemma finish_subscriptions r s : subscriptions (finish r s) = subscriptions s.
Proof. unfold finish, close_registered. simpl. apply close_registered_subscriptions. Qed.

(** A message handler run on an open connection either leaves the registry
    as it is, or returns normally with the connection still open. *)
Lemma handle_registry_or_open app m s :
  is_open s = true ->
  let (r, s') := handle_websocket_message app m s in
  subscriptions s' = subscriptions s \/ (r = inl tt /\ is_open s' = true).
Proof.
  intros Ho.
  destruct m as [payload| |id p|id|ty]; unfold handle_websocket_message.
  - unfold bind, modify, send_json. simpl. destruct (application_state s); left; reflexivity.
  - unfold close. destruct (application_state s); left; reflexivity.
  - unfold ws_on_start, bind, lift, get.
    destruct (sp_parse p) as [e0|e0|e0|op verrs]; simpl; try (left; reflexivity);
      destruct (get_context_value _ _); simpl; try (left; reflexivity).
    + unfold send_json. destruct (application_state s); left; reflexivity.
    + destruct verrs as [|v vs]; simpl.
      * destruct op as [[| |]|]; simpl;
          [unfold handle_query_over_ws| unfold handle_query_over_ws
          | unfold start_subscription | unfold handle_query_over_ws];
          [destruct (sp_execute p) as [d [|e es]|d es|e]
          |destruct (sp_execute p) as [d [|e es]|d es|e]
          |destruct (sp_subscribe p) as [e es|rs fl|e]
          |destruct (sp_execute p) as [d [|e es]|d es|e]];
          unfold ret, raise, send_json, modify, bind; simpl;
          repeat match goal with
                 | |- context [match application_state ?t with _ => _ end] =>
                     destruct (application_state t)
                 end; simpl; try (left; reflexivity).
        right. split; [reflexivity|]. unfold register, is_open in *; simpl; exact Ho.
      * unfold send_json. destruct (application_state s); left; reflexivity.
  - unfold bind, get. destruct (dict_get id (subscriptions s)) as [n|]; [|left; reflexivity].
    unfold aclose, modify. simpl. right. split; [reflexivity|].
    destruct (update_gen_fields n close_gen s) as [_ [_ [_ [_ [E _]]]]].
    unfold is_open in *; simpl. exact (eq_trans E Ho).
  - left; reflexivity.
Qed.

Lemma observer_body_open app o g b :
  Preserves (fun t => is_open t = b) (observer_body app o g).
Proof.
  assert (Hs : forall m, Preserves (fun t => is_open t = b) (send_json m))
    by (intros m; apply pres_send; intros x t H; exact H).
  assert (Hu : forall n f, Preserves (fun t => is_open t = b) (modify (update_gen n f))).
  { intros n f; apply pres_modify; intros t H.
    destruct (update_gen_fields n f t) as [_ [_ [_ [_ [E _]]]]]; congruence. }
  assert (Ht : forall id, Preserves (fun t => is_open t = b) (observer_tail id)).
  { intros id; unfold observer_tail; pres_auto.
    match goal with |- Preserves _ (if ?c then _ else _) => destruct c end;
      [apply Hs|apply pres_ret]. }
  assert (He : forall id msg, Preserves (fun t => is_open t = b) (observer_except app id msg))
    by (intros id msg; unfold observer_except; pres_auto; [apply Hs|apply Ht]).
  unfold observer_body.
  destruct (closed g); [pres_auto; apply Ht|].
  destruct (pending g) as [|result rest]; pres_auto; try apply Hu; try apply Hs; try apply He.
  destruct (failure g); pres_auto; [apply He|apply Ht].
Qed.

(** An observer task never closes the connection. *)
Lemma observer_step_open app k s : is_open (observer_step app k s) = is_open s.
Proof.
  unfold observer_step.
  destruct (nth_error (observers s) k) as [o|]; [|reflexivity].
  destruct (obs_done o); [reflexivity|].
  destruct (nth_error (gens s) (obs_gen o)) as [g|]; [|reflexivity].
  pose proof (observer_body_open app o g (is_open s) s eq_refl) as Hb.
  destruct (observer_body app o g s) as [[[|]|e] s'] eqn:E; simpl in Hb;
    try exact Hb;
    unfold mark_done; destruct (nth_error (observers s') k); exact Hb.
Qed.

Lemma step_looping_open app s ev :
  (loop s = Looping -> is_open s = true) ->
  loop (step app s ev) = Looping -> is_open (step app s ev) = true.
Proof.
  intros H L'. destruct ev as [m| |k]; simpl in *.
  - destruct (loop s) eqn:L; [|congruence]. unfold loop_iteration in *.
    destruct (handle_websocket_message app m s) as [[u|e] s'] eqn:E.
    + destruct (is_open s') eqn:O; [exact O|].
      unfold finish in L'; simpl in L'; discriminate.
    + destruct e; unfold finish in L'; simpl in L'; discriminate.
  - destruct (loop s) eqn:L; [|congruence].
    unfold loop_disconnect, finish in L'; simpl in L'; discriminate.
  - rewrite observer_step_open. destruct (observer_step_frame app k s) as [_ [F2 _]].
    rewrite F2 in L'. auto.
Qed.

(** While its loop runs, a connection is open on both sides. *)
Lemma run_looping_open app evs : forall s,
  (loop s = Looping -> is_open s = true) ->
  loop (run app evs s) = Looping -> is_open (run app evs s) = true.
Proof.
  induction evs as [|ev evs IH]; intros s H; simpl; [exact H|].
  apply IH. intros L. exact (step_looping_open app s ev H L).
Qed.

(** The event that ends the loop of an open connection, whatever it is,
    leaves the registry as it was. *)
Lemma step_ending_keeps_registry app s ev r :
  loop s = Looping -> is_open s = true -> loop (step app s ev) = Ended r ->
  subscriptions (step app s ev) = subscriptions s.
Proof.
  intros L Ho Hr. destruct ev as [m| |k]; simpl in *.
  - rewrite L in *. unfold loop_iteration in *.
    pose proof (handle_registry_or_open app m s Ho) as Hh.
    pose proof (handle_preserves_loop app m Looping s L) as L'.
    destruct (handle_websocket_message app m s) as [[u|e] s'] eqn:E; simpl in L'.
    + destruct (is_open s') eqn:O; [congruence|].
      rewrite finish_subscriptions. destruct Hh as [Hh|[_ Hh]]; congruence.
    + destruct e; rewrite finish_subscriptions; destruct Hh as [Hh|[Hh _]]; congruence.
  - rewrite L. unfold loop_disconnect. rewrite finish_subscriptions. reflexivity.
  - exact (proj1 (observer_step_frame app k s)).
Qed.

Lemma register_fields id results fl s :
  let r := register id results fl s in
  nth_error (observers r) (length (observers s)) =
    Some (mkObserver (length (gens s)) id false) /\
  nth_error (gens r) (length (gens s)) = Some (mkGen results fl false false) /\
  is_open r = is_open s /\ sent r = sent s.
Proof.
  cbv zeta. unfold register; simpl.
  rewrite !nth_error_app2, !Nat.sub_diag by lia. repeat split.
Qed.

(** C1 (as the code does it): a [start] whose subscription starts registers
    its id for the new producer, replacing any entry of that id; [stop] for
    a registered id closes its producer and removes the id, so that a second
    [stop] for it does nothing; observer steps, including the one that finds
    the producer exhausted, never touch the registry; the event that ends the
    loop (a client disconnect, a [connection_terminate], an exception
    escaping a handler) closes the registered producers but leaves every
    entry in the registry. *)
Theorem registry_lifecycle app :
  (forall s id p results fl c, loop s = Looping -> is_open s = true ->
     get_context_value app (PWebSocket (connection_params s)) = inl c ->
     sp_parse p = Parsed (Some SUBSCRIPTION) [] ->
     sp_subscribe p = SubscribeStream results fl ->
     let s' := step app s (Receive (Start id p)) in
     subscriptions s' = dict_set id (length (gens s)) (subscriptions s) /\
     dict_get id (subscriptions s') = Some (length (gens s)) /\
     nth_error (gens s') (length (gens s)) = Some (mkGen results fl false false) /\
     loop s' = Looping) /\
  (forall s id n, loop s = Looping -> is_open s = true ->
     dict_get id (subscriptions s) = Some n ->
     let s' := step app s (Receive (Stop id)) in
     subscriptions s' = dict_delete id (subscriptions s) /\
     dict_get id (subscriptions s') = None /\
     loop s' = Looping /\
     nth_error (gens s') n = option_map close_gen (nth_error (gens s) n) /\
     step app s' (Receive (Stop id)) = s') /\
  (forall s k, subscriptions (step app s (ObserverStep k)) = subscriptions s) /\
  (forall s, subscriptions (step app s ClientDisconnect) = subscriptions s) /\
  (forall evs ev r,
     let s := run app evs initial_session in
     loop s = Looping -> loop (step app s ev) = Ended r ->
     subscriptions (step app s ev) = subscriptions s /\
     forall id n, dict_get id (subscriptions s) = Some n ->
       exists g, nth_error (gens (step app s ev)) n = Some g /\ closed g = true).
Proof.
  split; [|split; [|split; [|split]]].
  - intros s id p results fl c L Ho Hc Hp Hsub. cbv zeta.
    rewrite (start_subscription_registers app s id p results fl L Ho (ex_intro _ c Hc) Hp Hsub).
    destruct (register_fields id results fl s) as [_ [G _]].
    split; [reflexivity|]. split; [|split; [exact G|exact L]].
    unfold register; simpl. rewrite dict_get_set, String.eqb_refl. reflexivity.
  - intros s id n L Hopen Hn. cbv zeta.
    set (s1 := set_subscriptions (dict_delete id (subscriptions s)) (update_gen n close_gen s)).
    destruct (update_gen_fields n close_gen s) as [E1 [E2 [_ [_ [E5 [_ E7]]]]]].
    assert (Ho : is_open s1 = true) by (subst s1; unfold is_open in *; simpl; congruence).
    assert (L1 : loop s1 = Looping) by (subst s1; simpl; congruence).
    assert (Hs : step app s (Receive (Stop id)) = s1).
    { rewrite (step_receive _ _ _ L). unfold loop_iteration.
      rewrite (handle_stop_registered _ _ _ _ Hn). fold s1. now rewrite Ho. }
    assert (G1 : dict_get id (subscriptions s1) = None).
    { subst s1; simpl. rewrite dict_get_delete, String.eqb_refl. reflexivity. }
    rewrite Hs. split; [reflexivity|]. split; [exact G1|]. split; [exact L1|]. split.
    + subst s1; simpl. rewrite E7, Nat.eqb_refl. reflexivity.
    + rewrite (step_receive _ _ _ L1). unfold loop_iteration.
      rewrite (handle_stop_unregistered _ _ _ G1). now rewrite Ho.
  - intros s k. simpl. exact (proj1 (observer_step_frame app k s)).
  - intros s. simpl. destruct (loop s); [|reflexivity].
    unfold loop_disconnect. rewrite finish_subscriptions. reflexivity.
  - intros evs ev r. cbv zeta. intros L Hr.
    assert (Ho : is_open (run app evs initial_session) = true)
      by (apply run_looping_open; [intros _; reflexivity|exact L]).
    pose proof (step_ending_keeps_registry app _ ev r L Ho Hr) as Hs.
    split; [exact Hs|]. intros id n Hn.
    destruct (run_teardown_inv app (evs ++ [ev]) initial_session initial_teardown_inv)
      as [_ Hcl].
    unfold run in Hcl at 1 2. rewrite fold_left_app in Hcl. simpl in Hcl.
    apply (Hcl r Hr id n). exact (eq_trans (f_equal (dict_get id) Hs) Hn).
Qed.

Lemma registry_lifecycle_witness :
  let s0 := run Fixtures.app_default [Receive (Start "q1" Fixtures.sub_count3)] initial_session in
  subscriptions s0 = [("q1", 0%nat)] /\
  subscriptions (step Fixtures.app_default s0 (Receive (Stop "q1"))) = [] /\
  subscriptions (step Fixtures.app_default s0 (Receive ConnectionTerminate)) = [("q1", 0%nat)].
Proof.
  cbv zeta. split; [|split].
  - exact (proj1 (proj1 (registry_lifecycle Fixtures.app_default)
             initial_session "q1" Fixtures.sub_count3 [PInt 0; PInt 1; PInt 2] None
             (default_context (PWebSocket None))
             eq_refl eq_refl eq_refl eq_refl eq_refl)).
  - destruct (proj1 (proj2 (registry_lifecycle Fixtures.app_default))
                (run Fixtures.app_default [Receive (Start "q1" Fixtures.sub_count3)]
                   initial_session) "q1" 0%nat
                ltac:(vm_compute; reflexivity) ltac:(vm_compute; reflexivity)
                ltac:(vm_compute; reflexivity)) as [H _].
    rewrite H. vm_compute. reflexivity.
  - destruct (proj2 (proj2 (proj2 (proj2 (registry_lifecycle Fixtures.app_default))))
                [Receive (Start "q1" Fixtures.sub_count3)] (Receive ConnectionTerminate) None
                ltac:(vm_compute; reflexivity) ltac:(vm_compute; reflexivity)) as [H _].
    rewrite H. vm_compute. reflexivity.
Defined.

(** C1, counterexample: a producer that ends without yielding has been
    observed to its end, [complete] has been sent, and its id is still
    registered; a client disconnect then closes it but keeps the entry. *)
Lemma exhausted_producer_stays_registered :
  let s := run Fixtures.app_default
             [Receive (Start "q1" Fixtures.sub_empty); ObserverStep 0] initial_session in
  nth_error (gens s) 0 = Some (mkGen [] None false true) /\
  sent s = [Complete "q1"] /\ loop s = Looping /\
  dict_get "q1" (subscriptions s) = Some 0%nat /\
  dict_get "q1" (subscriptions (step Fixtures.app_default s ClientDisconnect)) = Some 0%nat.
Proof. vm_compute. repeat split. Qed.

(** C2 (as the code does it): when the loop has ended, for whatever reason,
    every producer that the registry still names has been closed. *)
Theorem teardown_closes_registered app evs r :
  loop (run app evs initial_session) = Ended r ->
  forall id n, dict_get id (subscriptions (run app evs initial_session)) = Some n ->
  exists g, nth_error (gens (run app evs initial_session)) n = Some g /\ closed g = true.
Proof.
  intros Hr.
  destruct (run_teardown_inv app evs initial_session initial_teardown_inv) as [_ H].
  exact (H r Hr).
Qed.

Lemma teardown_closes_registered_witness :
  let evs := [Receive (Start "q1" Fixtures.sub_count3); ClientDisconnect] in
  loop (run Fixtures.app_default evs initial_session) = Ended None /\
  dict_get "q1" (subscriptions (run Fixtures.app_default evs initial_session)) = Some 0%nat /\
  exists g, nth_error (gens (run Fixtures.app_default evs initial_session)) 0 = Some g /\
            closed g = true.
Proof.
  cbv zeta. split; [vm_compute; reflexivity|]. split; [vm_compute; reflexivity|].
  exact (teardown_closes_registered Fixtures.app_default
           [Receive (Start "q1" Fixtures.sub_count3); ClientDisconnect] None
           ltac:(vm_compute; reflexivity) "q1" 0%nat ltac:(vm_compute; reflexivity)).
Defined.

(** C2, counterexample: a second [start] with the same id replaces the
    registry entry; the first producer is then never closed, the loop ends,
    and its task still pulls a result from it afterwards. *)
Lemma reused_id_producer_outlives_connection :
  let s := run Fixtures.app_default
             [Receive (Start "q1" Fixtures.sub_count3);
              Receive (Start "q1" Fixtures.sub_count3); ClientDisconnect] initial_session in
  loop s = Ended None /\
  nth_error (gens s) 0 = Some (mkGen [PInt 0; PInt 1; PInt 2] None false false) /\
  option_map pending (nth_error (gens (step Fixtures.app_default s (ObserverStep 0))) 0)
    = Some [PInt 1; PInt 2].
Proof. vm_compute. repeat split. Qed.

Lemma send_json_open m s :
  is_open s = true -> send_json m s = (inl tt, set_sent (sent s ++ [m]) s).
Proof.
  unfold is_open, send_json. destruct (application_state s); simpl;
    rewrite ?andb_false_r; congruence.
Qed.

Lemma close_registered_sent (L : list (string * nat)) : forall s,
  sent (fold_left (fun s '(_, n) => update_gen n close_gen s) L s) = sent s.
Proof.
  induction L as [|[id0 n0] L IH]; intros s; simpl; [reflexivity|].
  rewrite IH. exact (proj1 (proj2 (proj2 (proj2 (update_gen_fields n0 close_gen s))))).
Qed.

Lemma finish_sent r s : sent (finish r s) = sent s.
Proof. unfold finish, close_registered. simpl. apply close_registered_sent. Qed.

(** C4 (as the code does it): when the context hook returns, a [start]
    whose captured error list is not empty, at parsing, validation,
    subscription or execution, sends one [error] message with the formatted
    first error, and nothing else happens.  When the context hook raises,
    which [_ws_on_start] calls before parsing, the [start] sends nothing and
    the loop ends. *)
Theorem start_errors_send_one_error app s id p :
  loop s = Looping -> is_open s = true ->
  (forall e c, get_context_value app (PWebSocket (connection_params s)) = inl c ->
     (sp_parse p = ParseFailed e \/
      (exists op es, sp_parse p = Parsed op (e :: es)) \/
      (sp_parse p = Parsed (Some SUBSCRIPTION) [] /\ exists es, sp_subscribe p = SubscribeErrors e es) \/
      (exists op d es, sp_parse p = Parsed op [] /\ op <> Some SUBSCRIPTION /\
                       sp_execute p = ExecuteSync d (e :: es))) ->
     step app s (Receive (Start id p)) = set_sent (sent s ++ [Error id (error_formatter app e)]) s) /\
  (forall e, get_context_value app (PWebSocket (connection_params s)) = inr e ->
     exists r, step app s (Receive (Start id p)) = finish r s /\
               loop (step app s (Receive (Start id p))) = Ended r /\
               sent (step app s (Receive (Start id p))) = sent s).
Proof.
  intros L Ho. split.
  - intros e c Hc Hcase.
    assert (Hs : is_open (set_sent (sent s ++ [Error id (error_formatter app e)]) s) = true)
      by exact Ho.
    rewrite (step_receive _ _ _ L). unfold loop_iteration. simpl.
    unfold ws_on_start, bind, get, lift.
    destruct Hcase as [H|[[op [es H]]|[[H [es H']]|[op [d [es [H [Hop H']]]]]]]];
      rewrite H; simpl; rewrite Hc.
    + unfold ret. rewrite (send_json_open _ _ Ho), Hs. reflexivity.
    + unfold ret. rewrite (send_json_open _ _ Ho), Hs. reflexivity.
    + unfold start_subscription. rewrite H'. unfold ret.
      rewrite (send_json_open _ _ Ho), Hs. reflexivity.
    + destruct op as [[| |]|]; [| |congruence|];
        unfold handle_query_over_ws; rewrite H'; unfold ret;
        rewrite (send_json_open _ _ Ho), Hs; reflexivity.
  - intros e He.
    assert (Hf : exists r, step app s (Receive (Start id p)) = finish r s).
    { rewrite (step_receive _ _ _ L). unfold loop_iteration. simpl.
      unfold ws_on_start, bind, get, lift.
      destruct (sp_parse p) as [e'|e'|e'|op ves]; simpl;
        try (rewrite He; destruct e; eexists; reflexivity).
      destruct e'; eexists; reflexivity. }
    destruct Hf as [r Hr]. exists r. rewrite Hr. split; [reflexivity|].
    split; [reflexivity|]. apply finish_sent.
Qed.

Lemma start_errors_send_one_error_witness :
  step Fixtures.app_default initial_session (Receive (Start "q1" Fixtures.sub_invalid)) =
  set_sent [Error "q1" (Fixtures.format_error "Syntax Error: Expected Name, found <EOF>.")]
    initial_session /\
  sent (step Fixtures.app_auth initial_session (Receive (Start "q1" Fixtures.sub_invalid))) = [].
Proof.
  destruct (start_errors_send_one_error Fixtures.app_default initial_session "q1"
              Fixtures.sub_invalid eq_refl eq_refl) as [H1 _].
  destruct (start_errors_send_one_error Fixtures.app_auth initial_session "q1"
              Fixtures.sub_invalid eq_refl eq_refl) as [_ H2].
  split.
  - exact (H1 "Syntax Error: Expected Name, found <EOF>." _ eq_refl (or_introl eq_refl)).
  - destruct (H2 (UserError "PermissionDenied") eq_refl) as [r [_ [_ E]]]. exact E.
Defined.

(** C4, counterexample: once the context hook rejects the connection, a
    [start] with a syntactically invalid query sends no [error] message: the
    exception of the hook ends the connection first. *)
Lemma context_failure_suppresses_start_error :
  let s := run Fixtures.app_auth
             [Receive (ConnectionInit (PStr "expired"));
              Receive (Start "q1" Fixtures.sub_invalid)] initial_session in
  sent s = [ConnectionAck] /\ loop s = Ended (Some (UserError "PermissionDenied")).
Proof. vm_compute. split; reflexivity. Qed.

(** C8 (as the code does it): an exception of the context hook during a
    [start] ends the message loop and the [finally] block runs.  The
    connection handler ends with that exception, except for
    [WebSocketDisconnect], which the loop catches: the handler then returns
    normally. *)
Theorem context_failure_ends_connection app s id p e :
  loop s = Looping ->
  query_lookup (sp_parse p) = inl tt ->
  get_context_value app (PWebSocket (connection_params s)) = inr e ->
  step app s (Receive (Start id p)) =
  finish (match e with WebSocketDisconnect => None | _ => Some e end) s.
Proof.
  intros L Hq H. rewrite (step_receive _ _ _ L). unfold loop_iteration. simpl.
  unfold ws_on_start, bind, get, lift. rewrite Hq, H. destruct e; reflexivity.
Qed.

Lemma context_failure_ends_connection_witness :
  let s := run Fixtures.app_auth [Receive (ConnectionInit (PStr "expired"))] initial_session in
  loop (step Fixtures.app_auth s (Receive (Start "b" Fixtures.sub_count3)))
    = Ended (Some (UserError "PermissionDenied")) /\
  loop (step Fixtures.app_refuse initial_session (Receive (Start "b" Fixtures.sub_count3)))
    = Ended None.
Proof.
  cbv zeta. split.
  - rewrite (context_failure_ends_connection Fixtures.app_auth
               (run Fixtures.app_auth [Receive (ConnectionInit (PStr "expired"))] initial_session)
               "b" Fixtures.sub_count3
               (UserError "PermissionDenied") eq_refl eq_refl eq_refl).
    vm_compute. reflexivity.
  - rewrite (context_failure_ends_connection Fixtures.app_refuse initial_session
               "b" Fixtures.sub_count3 WebSocketDisconnect eq_refl eq_refl eq_refl).
    vm_compute. reflexivity.
Defined.

(** C8, counterexample: with a live subscription "a", a [start] whose
    context hook raises ends the loop with the exception and closes the
    producer of "a". *)
Lemma context_failure_tears_down_connection :
  let s := run Fixtures.app_auth
             [Receive (ConnectionInit (PStr "token-ok"));
              Receive (Start "a" Fixtures.sub_count3);
              Receive (ConnectionInit (PStr "expired"));
              Receive (Start "b" Fixtures.sub_count3)] initial_session in
  loop s = Ended (Some (UserError "PermissionDenied")) /\
  option_map closed (nth_error (gens s) 0) = Some true.
Proof. vm_compute. split; reflexivity. Qed.

(** ** The messages of one subscription *)

Lemma sent_mark_done k s : sent (mark_done k s) = sent s.
Proof. unfold mark_done. destruct (nth_error (observers s) k); reflexivity. Qed.

(** One step of an observer whose producer has a next result: the result
    is sent as [data]. *)
Lemma observer_step_yield app t k n id x rest :
  nth_error (observers t) k = Some (mkObserver n id false) ->
  nth_error (gens t) n = Some (mkGen (x :: rest) None false false) ->
  is_open t = true ->
  let t' := update_gen n (fun g => mkGen rest (failure g) (closed g) (exhausted g)) t in
  observer_step app k t = set_sent (sent t ++ [Data id (PDict [("data", x)])]) t'.
Proof.
  intros Ho Hg Hopen t'.
  destruct (update_gen_fields n (fun g => mkGen rest (failure g) (closed g) (exhausted g)) t)
    as [_ [_ [_ [E4 [E5 _]]]]].
  fold t' in E4, E5.
  unfold observer_step. rewrite Ho. cbn [obs_done obs_gen obs_id]. rewrite Hg.
  unfold observer_body. cbn [closed pending obs_id obs_gen].
  unfold bind, modify, catch, ret. fold t'.
  rewrite (send_json_open _ _ (eq_trans E5 Hopen)), E4. reflexivity.
Qed.

(** The step that finds the producer exhausted: [complete] is sent and the
    task ends. *)
Lemma observer_step_end app t k n id :
  nth_error (observers t) k = Some (mkObserver n id false) ->
  nth_error (gens t) n = Some (mkGen [] None false false) ->
  is_open t = true ->
  let t' := update_gen n (fun g => mkGen [] None (closed g) true) t in
  observer_step app k t = mark_done k (set_sent (sent t ++ [Complete id]) t').
Proof.
  intros Ho Hg Hopen t'.
  destruct (update_gen_fields n (fun g => mkGen [] None (closed g) true) t)
    as [_ [_ [_ [E4 [E5 _]]]]].
  fold t' in E4, E5.
  unfold observer_step. rewrite Ho. cbn [obs_done obs_gen obs_id]. rewrite Hg.
  unfold observer_body. cbn [closed pending obs_id obs_gen failure].
  unfold bind, modify, ret. fold t'.
  unfold observer_tail, bind, get. rewrite (eq_trans E5 Hopen).
  rewrite (send_json_open _ _ (eq_trans E5 Hopen)), E4. reflexivity.
Qed.

(** The task of an observer whose producer holds [rs] runs [length rs + 1]
    steps: one [data] per result, then [complete]. *)
Lemma observer_messages app k n id rs : forall t,
  nth_error (observers t) k = Some (mkObserver n id false) ->
  nth_error (gens t) n = Some (mkGen rs None false false) ->
  is_open t = true ->
  sent (run app (repeat (ObserverStep k) (S (length rs))) t) =
  sent t ++ map (fun r => Data id (PDict [("data", r)])) rs ++ [Complete id].
Proof.
  induction rs as [|x rest IH]; intros t Ho Hg Hopen.
  - simpl. rewrite (observer_step_end app t k n id Ho Hg Hopen).
    rewrite sent_mark_done. simpl.
    destruct (update_gen_fields n (fun g => mkGen [] None (closed g) true) t)
      as [_ [_ [_ [E4 _]]]].
    reflexivity.
  - change (run app (repeat (ObserverStep k) (S (length (x :: rest)))) t)
      with (run app (repeat (ObserverStep k) (S (length rest))) (step app t (ObserverStep k))).
    simpl step. rewrite (observer_step_yield app t k n id x rest Ho Hg Hopen).
    set (f := fun g => mkGen rest (failure g) (closed g) (exhausted g)).
    destruct (update_gen_fields n f t) as [_ [_ [E3 [E4 [E5 [_ E7]]]]]].
    rewrite IH.
    + simpl. rewrite <- app_assoc. reflexivity.
    + simpl. rewrite E3. exact Ho.
    + simpl. rewrite E7, Nat.eqb_refl, Hg. reflexivity.
    + unfold is_open in *. simpl. exact (eq_trans E5 Hopen).
Qed.

(** C3: on an open connection, a [start] of a subscription whose producer
    yields [results] and ends, followed by the steps of its task, sends one
    [data] per result in order and then one [complete], all with the id of
    the [start]. *)
Theorem subscription_stream_messages app s id p results :
  loop s = Looping -> is_open s = true ->
  (exists c, get_context_value app (PWebSocket (connection_params s)) = inl c) ->
  sp_parse p = Parsed (Some SUBSCRIPTION) [] ->
  sp_subscribe p = SubscribeStream results None ->
  sent (run app (Receive (Start id p)
                 :: repeat (ObserverStep (length (observers s))) (S (length results))) s) =
  sent s ++ map (fun r => Data id (PDict [("data", r)])) results ++ [Complete id].
Proof.
  intros L Ho Hc Hp Hsub.
  change (run app (Receive (Start id p) :: ?evs) s)
    with (run app evs (step app s (Receive (Start id p)))).
  rewrite (start_subscription_registers app s id p results None L Ho Hc Hp Hsub).
  destruct (register_fields id results None s) as [R1 [R2 [R3 R4]]].
  rewrite (observer_messages app _ _ _ _ _ R1 R2 (eq_trans R3 Ho)), R4.
  reflexivity.
Qed.

Lemma subscription_stream_messages_witness :
  sent (run Fixtures.app_default
          (Receive (Start "q1" Fixtures.sub_count3) :: repeat (ObserverStep 0) 4)
          initial_session) =
  [Data "q1" (PDict [("data", PInt 0)]); Data "q1" (PDict [("data", PInt 1)]);
   Data "q1" (PDict [("data", PInt 2)]); Complete "q1"].
Proof.
  exact (subscription_stream_messages Fixtures.app_default initial_session "q1"
           Fixtures.sub_count3 [PInt 0; PInt 1; PInt 2]
           eq_refl eq_refl (ex_intro _ _ eq_refl) eq_refl eq_refl).
Defined.

(* ================================================================== *)
(** * Further properties of the code *)
(* ================================================================== *)

(** ** The file injector *)

Lemma upload_files_not_none body name v :
  dict_get name (upload_files body) = Some v -> v <> PNone.
Proof.
  intros H. apply dict_get_in in H. unfold upload_files in H.
  apply in_flat_map in H. destruct H as [[k [s|h]] [_ Hin]]; simpl in Hin; [contradiction|].
  destruct Hin as [Hin|[]]. injection Hin as _ <-. discriminate.
Qed.

Lemma inject_idem file segs ops ops' :
  segs <> [] -> file <> PNone ->
  inject_file_to_operations ops file segs = inl ops' ->
  inject_file_to_operations ops' file segs = inl ops'.
Proof.
  intros Hne Hf Hi.
  assert (Hg : exists w, get_path ops' segs = inl w /\ w <> PNone).
  { pose proof (inject_file_to_operations_path file segs Hne ops) as H.
    destruct (get_path ops segs) as [v|e] eqn:G.
    - destruct v;
        try (rewrite H in Hi; injection Hi as <-; eexists; split; [exact G|discriminate]).
      destruct H as [t' [E1 E2]]. rewrite E1 in Hi. injection Hi as <-. eauto.
    - rewrite H in Hi. discriminate. }
  destruct Hg as [w [G Hw]].
  pose proof (inject_file_to_operations_path file segs Hne ops') as H.
  rewrite G in H. destruct w; try exact H; contradiction.
Qed.

(** Listing the same path twice for an uploaded file gives the same result
    as listing it once: the second injection finds the file handle, which
    is not [None], and leaves the tree alone. *)
Theorem inject_paths_duplicate ops body name p :
  inject_paths ops (upload_files body) name [PStr p; PStr p] =
  inject_paths ops (upload_files body) name [PStr p].
Proof.
  cbn [inject_paths].
  destruct (dict_get name (upload_files body)) as [file|] eqn:F; [|reflexivity].
  destruct (inject_file_to_operations ops file (py_split "." p)) as [o|e] eqn:I;
    [|reflexivity].
  cbn [inject_paths].
  rewrite (inject_idem file _ ops o (py_split_not_nil _ _)
             (upload_files_not_none _ _ _ F) I).
  reflexivity.
Qed.

(** A segment that [int()] accepts is an integer key, and a JSON object
    only has string keys: such a segment can never select an entry of an
    object, even one whose key is that very text. *)
Theorem int_segment_on_dict_raises kv file seg rest z :
  PyInt.parse seg = Some z ->
  inject_file_to_operations (PDict kv) file (seg :: rest) = inr KeyError.
Proof.
  intros H. assert (Hk : to_key seg = KInt z) by (unfold to_key; now rewrite H).
  destruct rest; simpl; rewrite Hk; reflexivity.
Qed.

Lemma int_segment_on_dict_raises_witness :
  PyInt.parse "0" = Some 0%Z /\
  inject_file_to_operations (PDict [("0", PNone)]) (PUpload 1) ["0"] = inr KeyError.
Proof.
  split; [reflexivity|].
  exact (int_segment_on_dict_raises [("0", PNone)] (PUpload 1) "0" [] 0%Z eq_refl).
Defined.

(** An integer segment outside [-len, len) of the list it indexes raises
    [IndexError]. *)
Theorem index_out_of_range_raises l file seg rest z :
  PyInt.parse seg = Some z ->
  (z < - Z.of_nat (length l) \/ Z.of_nat (length l) <= z)%Z ->
  inject_file_to_operations (PList l) file (seg :: rest) = inr IndexError.
Proof.
  intros H Hz. assert (Hk : to_key seg = KInt z) by (unfold to_key; now rewrite H).
  assert (Hn : norm_index z (length l) = None).
  { unfold norm_index.
    destruct (Z.leb_spec (- Z.of_nat (length l)) z), (Z.ltb_spec z (Z.of_nat (length l)));
      simpl; try reflexivity; lia. }
  destruct rest; simpl; rewrite Hk, Hn; reflexivity.
Qed.

Lemma index_out_of_range_raises_witness :
  inject_file_to_operations (PList [PNone; PNone]) (PUpload 1) ["-3"] = inr IndexError.
Proof.
  exact (index_out_of_range_raises [PNone; PNone] (PUpload 1) "-3" [] (-3)%Z
           eq_refl ltac:(simpl; lia)).
Defined.

(** ** Python's [int()] on path segments *)

Lemma chars_ascii l :
  (forall c, In c l -> (Utf8.byte c < 128)%Z) -> Utf8.chars l = map (fun c => [c]) l.
Proof.
  induction l as [|b r IH]; intros H; [reflexivity|]. simpl.
  rewrite IH by (intros c Hc; apply H; right; exact Hc).
  destruct r as [|c r']; [reflexivity|]. simpl.
  assert (Hc : Utf8.is_cont c = false).
  { unfold Utf8.is_cont. specialize (H c (or_intror (or_introl eq_refl))).
    destruct (Z.leb_spec 128 (Utf8.byte c)); [lia|reflexivity]. }
  now rewrite Hc.
Qed.

Lemma fold_left_map_fn {A B C} (f : A -> B -> A) (g : C -> B) l : forall a,
  fold_left f (map g l) a = fold_left (fun a x => f a (g x)) l a.
Proof. induction l as [|x l IH]; intros a; simpl; auto. Qed.

Lemma byte_range c : (0 <= Utf8.byte c < 256)%Z.
Proof.
  unfold Utf8.byte. pose proof (nat_ascii_bounded c). lia.
Qed.

Lemma drop_spaces_digits l :
  (forall c, In c l -> PyInt.is_digit c = true) -> PyInt.drop_spaces l = l.
Proof.
  destruct l as [|c r]; intros H; [reflexivity|]. simpl.
  specialize (H c (or_introl eq_refl)). unfold PyInt.is_digit in H.
  unfold PyInt.is_space.
  destruct (Z.eqb_spec c 32); [apply andb_prop in H; destruct H as [H _];
                               apply Z.leb_le in H; lia|].
  destruct (Z.leb_spec 9 c), (Z.leb_spec c 13); simpl; try reflexivity.
  apply andb_prop in H; destruct H as [H _]; apply Z.leb_le in H; lia.
Qed.

Lemma digits_all acc n l :
  (forall c, In c l -> PyInt.is_digit c = true) ->
  PyInt.digits acc n false l =
  Some (fold_left (fun acc c => (acc * 10 + PyInt.digit_val c)%Z) l acc,
        (n + Z.of_nat (length l))%Z).
Proof.
  revert acc n; induction l as [|c r IH]; intros acc n H; simpl.
  - f_equal. f_equal. lia.
  - rewrite (H c (or_introl eq_refl)). rewrite IH by (intros d Hd; apply H; right; exact Hd).
    f_equal. f_equal. lia.
Qed.

(** A segment of ASCII digits is an integer key equal to its decimal value,
    leading zeros allowed, as long as it has at most 4300 digits; a longer
    one is refused by [int()] and stays a string key. *)
Theorem digit_segment_is_index ds :
  ds <> [] -> forallb (fun c => PyInt.is_digit (Utf8.byte c)) ds = true ->
  to_key (string_of_list_ascii ds) =
  if (Z.of_nat (length ds) <=? PyInt.max_str_digits)%Z
  then KInt (fold_left (fun acc c => (acc * 10 + PyInt.digit_val (Utf8.byte c))%Z) ds 0%Z)
  else KStr (string_of_list_ascii ds).
Proof.
  intros Hne Hall. rewrite forallb_forall in Hall.
  assert (Hd : forall c, In c (map Utf8.byte ds) -> PyInt.is_digit c = true).
  { intros c Hc. apply in_map_iff in Hc. destruct Hc as [b [<- Hb]]. auto. }
  assert (Hsmall : forall c, In c (map Utf8.byte ds) -> (c < 127)%Z).
  { intros c Hc. specialize (Hd c Hc). unfold PyInt.is_digit in Hd.
    apply andb_prop in Hd. destruct Hd as [_ Hd]. apply Z.leb_le in Hd. lia. }
  assert (Hcp : map PyInt.to_ascii (Utf8.code_points (string_of_list_ascii ds)) =
                map Utf8.byte ds).
  { unfold Utf8.code_points. rewrite list_ascii_of_string_of_list_ascii.
    rewrite chars_ascii.
    - rewrite !map_map. apply map_ext_in. intros b Hb. simpl.
      unfold PyInt.to_ascii.
      assert (Hb' : (Utf8.byte b < 127)%Z) by (apply Hsmall, in_map, Hb).
      destruct (Z.ltb_spec (Utf8.byte b) 127); [reflexivity|lia].
    - intros b Hb. assert (Hb' : (Utf8.byte b < 127)%Z) by (apply Hsmall, in_map, Hb). lia. }
  unfold to_key, PyInt.parse, PyInt.strip. rewrite Hcp.
  rewrite (drop_spaces_digits _ Hd).
  rewrite drop_spaces_digits by (intros c Hc; apply Hd, in_rev, Hc).
  rewrite rev_involutive.
  destruct ds as [|b r]; [congruence|]. cbn [map].
  assert (Hb : PyInt.is_digit (Utf8.byte b) = true) by (apply Hall; left; reflexivity).
  assert (Hne45 : (Utf8.byte b =? 45)%Z = false).
  { unfold PyInt.is_digit in Hb. apply andb_prop in Hb. destruct Hb as [Hb _].
    apply Z.leb_le in Hb. apply Z.eqb_neq. lia. }
  assert (Hne43 : (Utf8.byte b =? 43)%Z = false).
  { unfold PyInt.is_digit in Hb. apply andb_prop in Hb. destruct Hb as [Hb _].
    apply Z.leb_le in Hb. apply Z.eqb_neq. lia. }
  rewrite Hne45, Hne43. unfold PyInt.unsigned. rewrite Hb.
  rewrite digits_all by (intros c Hc; apply Hd; right; exact Hc).
  rewrite length_map. simpl length.
  replace (1 + Z.of_nat (length r))%Z with (Z.of_nat (S (length r))) by lia.
  destruct (Z.of_nat (S (length r)) <=? PyInt.max_str_digits)%Z; [|reflexivity].
  simpl. rewrite fold_left_map_fn. reflexivity.
Qed.

Lemma digit_segment_is_index_witness :
  to_key "007" = KInt 7%Z /\
  to_key (string_of_list_ascii Fixtures.digits_4301) =
  KStr (string_of_list_ascii Fixtures.digits_4301).
Proof.
  split.
  - exact (digit_segment_is_index ["0"; "0"; "7"]%char ltac:(discriminate) eq_refl).
  - exact (digit_segment_is_index Fixtures.digits_4301 ltac:(discriminate)
             ltac:(vm_compute; reflexivity)).
Defined.

Lemma digits_bad c acc n us l :
  In c l -> PyInt.is_digit c = false -> c <> 95%Z ->
  PyInt.digits acc n us l = None.
Proof.
  revert acc n us; induction l as [|c0 r IH]; intros acc n us Hin Hd Hu; [destruct Hin|].
  simpl. destruct Hin as [->|Hin].
  - rewrite Hd. destruct (Z.eqb_spec c 95); [contradiction|reflexivity].
  - destruct (PyInt.is_digit c0); [apply IH; auto|].
    destruct ((c0 =? 95)%Z && negb us); [apply IH; auto|reflexivity].
Qed.

Lemma unsigned_bad c l :
  In c l -> PyInt.is_digit c = false -> c <> 95%Z -> PyInt.unsigned l = None.
Proof.
  intros Hin Hd Hu. destruct l as [|c0 r]; [reflexivity|]. simpl.
  destruct (PyInt.is_digit c0) eqn:D; [|reflexivity].
  destruct Hin as [->|Hin]; [congruence|].
  rewrite (digits_bad c _ _ _ r Hin Hd Hu). reflexivity.
Qed.

Lemma in_drop_spaces c l :
  In c l -> PyInt.is_space c = false -> In c (PyInt.drop_spaces l).
Proof.
  induction l as [|c0 r IH]; intros Hin Hs; [destruct Hin|]. simpl.
  destruct (PyInt.is_space c0) eqn:S; [|exact Hin].
  destruct Hin as [->|Hin]; [congruence|]. auto.
Qed.

(** What [_PyUnicode_TransformDecimalAndSpaceToASCII] makes of a code point
    that is neither a decimal digit nor whitespace, an underscore or a
    sign. *)
Lemma to_ascii_bad c :
  PyInt.to_decimal c = None -> PyInt.is_unicode_space c = false ->
  c <> 95%Z -> c <> 43%Z -> c <> 45%Z ->
  PyInt.is_digit (PyInt.to_ascii c) = false /\ PyInt.is_space (PyInt.to_ascii c) = false /\
  PyInt.to_ascii c <> 95%Z /\ PyInt.to_ascii c <> 43%Z /\ PyInt.to_ascii c <> 45%Z.
Proof.
  intros Hd Hs H95 H43 H45. unfold PyInt.is_unicode_space in Hs. unfold PyInt.to_ascii.
  destruct (Z.ltb_spec c 127).
  - repeat split; auto.
    destruct (PyInt.is_digit c) eqn:D; [|reflexivity].
    unfold PyInt.is_digit in D. apply andb_prop in D. destruct D as [D1 D2].
    apply Z.leb_le in D1. apply Z.leb_le in D2.
    unfold PyInt.to_decimal in Hd. simpl in Hd.
    destruct (Z.leb_spec 48 c); [|lia]. destruct (Z.ltb_spec c 58); [discriminate|lia].
  - rewrite Hs, Hd. repeat split; discriminate.
Qed.

(** A segment containing a code point that is not a decimal digit (of any
    script), not whitespace, not an underscore and not a sign is used as an
    object key exactly as written. *)
Theorem non_numeric_segment_is_key seg c :
  In c (Utf8.code_points seg) ->
  PyInt.to_decimal c = None -> PyInt.is_unicode_space c = false ->
  c <> 95%Z -> c <> 43%Z -> c <> 45%Z ->
  to_key seg = KStr seg.
Proof.
  intros Hin Hd Hs H95 H43 H45.
  destruct (to_ascii_bad c Hd Hs H95 H43 H45) as [Ad [As [A95 [A43 A45]]]].
  set (a := PyInt.to_ascii c) in *.
  assert (Hin' : In a (PyInt.strip (map PyInt.to_ascii (Utf8.code_points seg)))).
  { unfold PyInt.strip. apply in_rev. rewrite rev_involutive.
    apply in_drop_spaces; [|exact As]. apply in_rev. rewrite rev_involutive.
    apply in_drop_spaces; [|exact As]. apply in_map, Hin. }
  unfold to_key, PyInt.parse.
  destruct (PyInt.strip (map PyInt.to_ascii (Utf8.code_points seg))) as [|c0 r]; [reflexivity|].
  assert (Hr : c0 = 45%Z \/ c0 = 43%Z -> In a r).
  { intros Hc0. destruct Hin' as [<-|Hin']; [lia|exact Hin']. }
  destruct (Z.eqb_spec c0 45).
  - rewrite (unsigned_bad a r (Hr (or_introl e)) Ad A95). reflexivity.
  - destruct (Z.eqb_spec c0 43).
    + rewrite (unsigned_bad a r (Hr (or_intror e)) Ad A95). reflexivity.
    + rewrite (unsigned_bad a (c0 :: r) Hin' Ad A95). reflexivity.
Qed.

Lemma non_numeric_segment_is_key_witness : to_key "1e3" = KStr "1e3".
Proof.
  exact (non_numeric_segment_is_key "1e3" 101%Z ltac:(vm_compute; auto) eq_refl eq_refl
           ltac:(discriminate) ltac:(discriminate) ltac:(discriminate)).
Defined.

(** ** The multipart map *)

(** Entries of the map whose path list is empty inject nothing and never
    look up their file part, so they do not fail even when no such part was
    uploaded. *)
Theorem inject_map_empty_paths ops files m :
  Forall (fun e => iterate (snd e) = inl []) m -> inject_map ops files m = inl ops.
Proof.
  intros H; induction H as [|[name paths] m Hp _ IH]; simpl in *; [reflexivity|].
  now rewrite Hp.
Qed.

Lemma inject_map_empty_paths_witness :
  inject_map (PDict [("query", PStr "q")]) [] [("0", PList []); ("1", PStr "")]
  = inl (PDict [("query", PStr "q")]).
Proof.
  apply inject_map_empty_paths. repeat constructor.
Defined.

Lemma get_operation_multipart_map json_loads r body ops m :
  header_content_type r = "multipart/form-data" ->
  req_form r = Some body ->
  form_json json_loads body "operations" = Some ops ->
  is_dict_or_list ops = true ->
  form_json json_loads body "map" = Some (PDict m) ->
  get_operation_from_request json_loads r = inject_map ops (upload_files body) m.
Proof.
  intros Hct Hform Hops Hdl Hmap. unfold get_operation_from_request. rewrite Hct. simpl.
  unfold get_operation_from_multipart. rewrite Hform, Hops, Hdl. simpl. now rewrite Hmap.
Qed.

Lemma inject_paths_app ops files name ps1 ps2 :
  inject_paths ops files name (ps1 ++ ps2) =
  match inject_paths ops files name ps1 with
  | inr e => inr e
  | inl ops' => inject_paths ops' files name ps2
  end.
Proof.
  revert ops; induction ps1 as [|v ps1 IH]; intros ops; simpl; [reflexivity|].
  destruct v; try reflexivity.
  destruct (dict_get name files); [|reflexivity].
  destruct (inject_file_to_operations _ _ _); [apply IH|reflexivity].
Qed.

(** A map entry that is not iterable (a number, a boolean or null), or a
    path that is not a string, reached once the entries before it and the
    earlier paths of its own entry were injected, makes the extraction
    raise [TypeError] or [AttributeError]; neither is a [ValueError], so
    the HTTP handler lets it escape instead of answering 400. *)
Theorem malformed_map_uncaught json_loads graphql app r body ops pre name paths post ops' :
  header_content_type r = "multipart/form-data" ->
  req_form r = Some body ->
  form_json json_loads body "operations" = Some ops ->
  is_dict_or_list ops = true ->
  form_json json_loads body "map" = Some (PDict (pre ++ (name, paths) :: post)) ->
  inject_map ops (upload_files body) pre = inl ops' ->
  (forall e, iterate paths = inr e ->
     handle_http_request json_loads graphql app r = Raised TypeError) /\
  (forall ps1 v ps2 ops'', iterate paths = inl (ps1 ++ v :: ps2) ->
     inject_paths ops' (upload_files body) name ps1 = inl ops'' ->
     (forall s, v <> PStr s) ->
     handle_http_request json_loads graphql app r = Raised AttributeError).
Proof.
  intros Hct Hform Hops Hdl Hmap Hpre.
  pose proof (get_operation_multipart_map json_loads r body ops _ Hct Hform Hops Hdl Hmap)
    as E.
  rewrite inject_map_app, Hpre in E. simpl in E.
  split.
  - intros e Hit. assert (He : e = TypeError).
    { destruct paths; simpl in Hit; congruence. }
    subst e. rewrite Hit in E. unfold handle_http_request. now rewrite E.
  - intros ps1 v ps2 ops'' Hit H1 Hv. rewrite Hit, inject_paths_app, H1 in E. simpl in E.
    destruct v; try (exfalso; eapply Hv; reflexivity);
      unfold handle_http_request; rewrite E; reflexivity.
Qed.

Lemma malformed_map_uncaught_witness :
  handle_http_request Fixtures.json_loads_more Fixtures.graphql_with_error
    Fixtures.app_default Fixtures.req_multipart_bad_map = Raised TypeError /\
  handle_http_request Fixtures.json_loads_mixed Fixtures.graphql_with_error
    Fixtures.app_default Fixtures.req_multipart_mixed_map = Raised AttributeError.
Proof.
  split.
  2: {
  refine (proj2 (malformed_map_uncaught Fixtures.json_loads_mixed Fixtures.graphql_with_error
           Fixtures.app_default Fixtures.req_multipart_mixed_map
           [("operations", FPField Fixtures.ops_text); ("map", FPField Fixtures.mixed_map_text);
            ("0", FPFile 1)]
           (PDict [("query", PStr "mutation"); ("variables", PDict [("file", PNone)])])
           [] "0" (PList [PStr "variables.file"; PInt 1]) []
           (PDict [("query", PStr "mutation"); ("variables", PDict [("file", PNone)])])
           eq_refl eq_refl eq_refl eq_refl eq_refl eq_refl)
           [PStr "variables.file"] (PInt 1) [] _ eq_refl _ _); [reflexivity|].
  intros s0; discriminate. }
  apply (proj1 (malformed_map_uncaught Fixtures.json_loads_more Fixtures.graphql_with_error
           Fixtures.app_default Fixtures.req_multipart_bad_map
           [("operations", FPField Fixtures.ops_text); ("map", FPField Fixtures.bad_map_text)]
           (PDict [("query", PStr "mutation"); ("variables", PDict [("file", PNone)])])
           [] "0" (PInt 1) []
           (PDict [("query", PStr "mutation"); ("variables", PDict [("file", PNone)])])
           eq_refl eq_refl eq_refl eq_refl eq_refl eq_refl) TypeError).
  reflexivity.
Defined.

(** ** Content types and the HTTP handler *)

Lemma py_split_app sep a t :
  (forall c, In c (list_ascii_of_string a) -> c <> sep) ->
  py_split sep (String.append a (String sep t)) = a :: py_split sep t.
Proof.
  induction a as [|c r IH]; intros H; simpl.
  - destruct (py_split sep t) as [|w ws] eqn:E; [now apply py_split_not_nil in E|].
    now rewrite Ascii.eqb_refl.
  - rewrite IH by (intros c' Hc; apply H; right; exact Hc).
    destruct (Ascii.eqb_spec c sep) as [->|]; [exfalso; eapply H; [left|]; reflexivity|].
    reflexivity.
Qed.

(** The parameters after the first ';' of the Content-Type header do not
    change the dispatch: "application/json; charset=utf-8" decodes the body
    as JSON, "multipart/form-data; boundary=..." reads the form. *)
Theorem content_type_parameters_ignored json_loads r t :
  (req_content_type r = Some (String.append "application/json" (String ";" t)) ->
     get_operation_from_request json_loads r =
     match json_loads (req_body r) with
     | Some v => inl v
     | None => inr (ValueError "Request body is not a valid JSON")
     end) /\
  (req_content_type r = Some (String.append "multipart/form-data" (String ";" t)) ->
     get_operation_from_request json_loads r =
     get_operation_from_multipart json_loads (req_form r)).
Proof.
  split; intros H; unfold get_operation_from_request, header_content_type; rewrite H;
    rewrite py_split_app by (simpl; intros c Hc;
                             repeat (destruct Hc as [<-|Hc]; [discriminate|]); destruct Hc);
    reflexivity.
Qed.

Lemma content_type_parameters_ignored_witness :
  get_operation_from_request Fixtures.json_loads_table
    (mkRequest 0 (Some "application/json; charset=utf-8") "{}" None) = inl (PDict []).
Proof.
  rewrite (proj1 (content_type_parameters_ignored Fixtures.json_loads_table
                    (mkRequest 0 (Some "application/json; charset=utf-8") "{}" None)
                    " charset=utf-8") eq_refl).
  reflexivity.
Defined.

(** A context value that is [None], a boolean, a number, a string or a
    list (a truthy static value, or what a context callable returns) makes
    every request with a query whose execution returns a result fail with
    [AttributeError] at [context_value.get("background")], after the query
    has run. *)
Theorem non_dict_context_raises json_loads graphql app r kv q ctx res :
  get_operation_from_request json_loads r = inl (PDict kv) ->
  dict_get "query" kv = Some q ->
  get_context_value app (PHttpConn (req_id r)) = inl ctx ->
  match ctx with PNone | PBool _ | PInt _ | PStr _ | PList _ => True | _ => False end ->
  graphql q (match dict_get "variables" kv with Some x => x | None => PNone end)
    (match dict_get "operationName" kv with Some x => x | None => PNone end) ctx = inl res ->
  handle_http_request json_loads graphql app r = Raised AttributeError.
Proof.
  intros Hop Hq Hc Hd Hg. rewrite (handle_http_request_query _ _ _ _ _ _ Hop Hq). cbv zeta.
  rewrite Hc, Hg. destruct res as [data errors].
  destruct ctx; try contradiction; reflexivity.
Qed.

Lemma non_dict_context_raises_witness :
  handle_http_request Fixtures.json_loads_table Fixtures.graphql_with_error
    Fixtures.app_string_context Fixtures.req_multipart_ok = Raised AttributeError.
Proof.
  apply (non_dict_context_raises _ _ _ _
           [("query", PStr "mutation"); ("variables", PDict [("file", PUpload 1)])]
           (PStr "mutation") (PStr "ctx") (PNone, ["resolver failed"])); try reflexivity; exact I.
Defined.

(** With a falsy static context value (the default [None] included), the
    query runs with the default context, holding the request, and when the
    execution returns a result the response is 200 with the
    [BackgroundTasks] of that context attached. *)
Theorem default_context_background json_loads graphql app r kv q v data errors :
  context_value app = CtxStatic v -> truthy v = false ->
  get_operation_from_request json_loads r = inl (PDict kv) ->
  dict_get "query" kv = Some q ->
  graphql q (match dict_get "variables" kv with Some x => x | None => PNone end)
    (match dict_get "operationName" kv with Some x => x | None => PNone end)
    (default_context (PHttpConn (req_id r))) = inl (data, errors) ->
  handle_http_request json_loads graphql app r =
  JSONResponse 200 (result_payload app data errors) PBackground.
Proof.
  intros Hcv Hv Hop Hq Hg. rewrite (handle_http_request_query _ _ _ _ _ _ Hop Hq). cbv zeta.
  unfold get_context_value. rewrite Hcv, Hv. rewrite Hg. reflexivity.
Qed.

Lemma default_context_background_witness :
  handle_http_request Fixtures.json_loads_table Fixtures.graphql_with_error
    Fixtures.app_default Fixtures.req_multipart_ok =
  JSONResponse 200 (result_payload Fixtures.app_default PNone ["resolver failed"]) PBackground.
Proof.
  exact (default_context_background Fixtures.json_loads_table Fixtures.graphql_with_error
           Fixtures.app_default Fixtures.req_multipart_ok
           [("query", PStr "mutation"); ("variables", PDict [("file", PUpload 1)])]
           (PStr "mutation") PNone PNone ["resolver failed"] eq_refl eq_refl eq_refl eq_refl eq_refl).
Defined.

(** ** The ASGI entry point *)

(** An HTTP request whose method is neither POST nor GET, or a GET with no
    [on_get] handler (or one returning [None]), is answered 405. *)
Theorem http_method_not_allowed json_loads graphql app on_get sc :
  scope_type sc = "http" ->
  (scope_method sc <> "POST" /\ scope_method sc <> "GET") \/
  (scope_method sc = "GET" /\ get_on_get on_get (scope_request sc) = inl None) ->
  call json_loads graphql app on_get sc = Responded (PlainResp 405).
Proof.
  intros Ht Hm. unfold call. rewrite Ht. simpl.
  destruct Hm as [[Hp Hg]|[Hg Hn]].
  - destruct (String.eqb_spec (scope_method sc) "POST"); [contradiction|].
    destruct (String.eqb_spec (scope_method sc) "GET"); [contradiction|]. reflexivity.
  - rewrite Hg. simpl. now rewrite Hn.
Qed.

Lemma http_method_not_allowed_witness :
  call Fixtures.json_loads_table Fixtures.graphql_with_error Fixtures.app_default None
    (mkScope "http" "GET" Fixtures.req_json_empty) = Responded (PlainResp 405) /\
  call Fixtures.json_loads_table Fixtures.graphql_with_error Fixtures.app_default None
    (mkScope "http" "PUT" Fixtures.req_json_empty) = Responded (PlainResp 405).
Proof.
  split; apply http_method_not_allowed; try reflexivity.
  - right; split; reflexivity.
  - left; split; discriminate.
Defined.

(** With [playground=True] and no [on_get], a GET is answered with the
    playground page, its options placeholder replaced by [json.dumps({})]. *)
Theorem playground_default_page json_loads graphql json_dumps html app sc :
  scope_type sc = "http" -> scope_method sc = "GET" ->
  call json_loads graphql app (init_on_get json_dumps html None true) sc =
  Responded (HTMLResp (py_replace "PLAYGROUND_OPTIONS" (json_dumps (PDict [])) html)).
Proof.
  intros Ht Hm. unfold call. rewrite Ht, Hm. reflexivity.
Qed.

Lemma playground_default_page_witness :
  call Fixtures.json_loads_table Fixtures.graphql_with_error Fixtures.app_default
    (init_on_get (fun _ => "{}") "<script>init(PLAYGROUND_OPTIONS)</script>" None true)
    (mkScope "http" "GET" Fixtures.req_json_empty)
  = Responded (HTMLResp "<script>init({})</script>").
Proof.
  rewrite playground_default_page by reflexivity. reflexivity.
Defined.

(** ** The WebSocket session *)

Lemma is_open_set_client_disconnected s : is_open (set_client_state DISCONNECTED s) = false.
Proof. reflexivity. Qed.

Lemma close_registered_is_open (L : list (string * nat)) : forall s,
  is_open (fold_left (fun s '(_, n) => update_gen n close_gen s) L s) = is_open s.
Proof.
  induction L as [|[id0 n0] L IH]; intros s; simpl; [reflexivity|].
  rewrite IH. exact (proj1 (proj2 (proj2 (proj2 (proj2 (update_gen_fields n0 close_gen s)))))).
Qed.

Lemma update_gen_application_state n f s :
  application_state (update_gen n f s) = application_state s.
Proof. unfold update_gen. destruct (nth_error (gens s) n); reflexivity. Qed.

Lemma send_json_closed m s :
  application_state s = DISCONNECTED -> send_json m s = (inr RuntimeError, s).
Proof. unfold send_json. now intros ->. Qed.

Lemma is_open_app_closed s : application_state s = DISCONNECTED -> is_open s = false.
Proof. unfold is_open. intros ->. apply andb_false_r. Qed.

Lemma mark_done_done k s o :
  nth_error (observers s) k = Some o ->
  nth_error (observers (mark_done k s)) k = Some (mkObserver (obs_gen o) (obs_id o) true).
Proof.
  unfold mark_done. intros H. rewrite H. simpl.
  apply nth_error_list_set_same, nth_error_Some. congruence.
Qed.

(** A [connection_terminate] closes the socket from the server side; the
    loop condition then fails, the [finally] block closes every registered
    producer and the handler returns. *)
Theorem connection_terminate_ends_loop app evs :
  let s := run app evs initial_session in
  loop s = Looping -> is_open s = true ->
  let s' := step app s (Receive ConnectionTerminate) in
  s' = finish None (set_application_state DISCONNECTED s) /\
  loop s' = Ended None /\ registry_closed s'.
Proof.
  intros s L Ho s'.
  assert (Hs : s' = finish None (set_application_state DISCONNECTED s)).
  { subst s'. rewrite (step_receive _ _ _ L). unfold loop_iteration. simpl.
    unfold close.
    pose proof (is_open_app_closed (set_application_state DISCONNECTED s) eq_refl) as Oc.
    destruct (application_state s) eqn:A;
      [| |rewrite (is_open_app_closed s A) in Ho; discriminate];
      cbv beta iota; now rewrite Oc. }
  destruct (run_teardown_inv app evs initial_session initial_teardown_inv) as [Hwf _].
  fold s in Hwf.
  destruct (finish_closes_registered None (set_application_state DISCONNECTED s) Hwf)
    as [[_ Hcl] _].
  split; [exact Hs|]. rewrite Hs. split; [reflexivity|]. apply Hcl with None. reflexivity.
Qed.

Lemma connection_terminate_ends_loop_witness :
  loop (step Fixtures.app_default
          (run Fixtures.app_default [Receive (Start "q1" Fixtures.sub_count3)] initial_session)
          (Receive ConnectionTerminate)) = Ended None.
Proof.
  exact (proj1 (proj2 (connection_terminate_ends_loop Fixtures.app_default
                         [Receive (Start "q1" Fixtures.sub_count3)] eq_refl eq_refl))).
Defined.

(** A message of an unknown type is ignored: nothing is sent and the
    session is unchanged. *)
Theorem unknown_message_ignored app s t :
  loop s = Looping -> is_open s = true -> step app s (Receive (Unknown t)) = s.
Proof.
  intros L Ho. rewrite (step_receive _ _ _ L). unfold loop_iteration. simpl.
  now rewrite Ho.
Qed.

Lemma unknown_message_ignored_witness :
  step Fixtures.app_default initial_session (Receive (Unknown "ka")) = initial_session.
Proof. exact (unknown_message_ignored Fixtures.app_default initial_session "ka" eq_refl eq_refl). Defined.

Lemma stop_registered_step app s id n :
  loop s = Looping -> is_open s = true -> dict_get id (subscriptions s) = Some n ->
  step app s (Receive (Stop id)) =
  set_subscriptions (dict_delete id (subscriptions s)) (update_gen n close_gen s).
Proof.
  intros L Ho Hn. rewrite (step_receive _ _ _ L). unfold loop_iteration.
  rewrite (handle_stop_registered _ _ _ _ Hn).
  destruct (update_gen_fields n close_gen s) as [_ [_ [_ [_ [E5 _]]]]].
  assert (H : is_open (set_subscriptions (dict_delete id (subscriptions s))
                         (update_gen n close_gen s)) = true)
    by (unfold is_open in *; simpl; congruence).
  now rewrite H.
Qed.

(** [stop] affects only its own subscription: the other registry entries,
    the other producers and the observer tasks are untouched, and nothing is
    sent. *)
Theorem stop_frame app s id n :
  loop s = Looping -> is_open s = true -> dict_get id (subscriptions s) = Some n ->
  let s' := step app s (Receive (Stop id)) in
  (forall id', id' <> id -> dict_get id' (subscriptions s') = dict_get id' (subscriptions s)) /\
  (forall m, m <> n -> nth_error (gens s') m = nth_error (gens s) m) /\
  observers s' = observers s /\ sent s' = sent s.
Proof.
  intros L Ho Hn s'. subst s'. rewrite (stop_registered_step _ _ _ _ L Ho Hn).
  destruct (update_gen_fields n close_gen s) as [_ [_ [E3 [E4 [_ [_ E7]]]]]].
  simpl. repeat split.
  - intros id' Hne. rewrite dict_get_delete.
    destruct (String.eqb_spec id' id); [congruence|reflexivity].
  - intros m Hm. rewrite E7. destruct (Nat.eqb_spec n m); [congruence|reflexivity].
  - exact E3.
  - exact E4.
Qed.

Lemma stop_frame_witness :
  let s := run Fixtures.app_default [Receive (Start "a" Fixtures.sub_count3);
                                     Receive (Start "b" Fixtures.sub_count3)] initial_session in
  dict_get "b" (subscriptions (step Fixtures.app_default s (Receive (Stop "a"))))
  = Some 1%nat.
Proof.
  cbv zeta.
  rewrite (proj1 (stop_frame Fixtures.app_default
                    (run Fixtures.app_default [Receive (Start "a" Fixtures.sub_count3);
                                               Receive (Start "b" Fixtures.sub_count3)]
                       initial_session) "a" 0%nat eq_refl eq_refl eq_refl) "b"
             ltac:(discriminate)).
  reflexivity.
Defined.

Lemma observer_step_closed app s k o g :
  nth_error (observers s) k = Some o -> obs_done o = false ->
  nth_error (gens s) (obs_gen o) = Some g -> closed g = true ->
  observer_step app k s =
  mark_done k (if is_open s then set_sent (sent s ++ [Complete (obs_id o)]) s else s).
Proof.
  intros Ho Hd Hg Hc. unfold observer_step. rewrite Ho, Hd, Hg.
  unfold observer_body. rewrite Hc. unfold observer_tail, bind, get, ret.
  destruct (is_open s) eqn:O; [now rewrite (send_json_open _ _ O)|reflexivity].
Qed.

(** After [stop], the next step of the subscription's task finds its
    producer closed: it sends one [complete] for the id, if the socket is
    open, and ends; later steps of the task do nothing. *)
Theorem stop_then_complete app s id n k g :
  loop s = Looping -> is_open s = true -> dict_get id (subscriptions s) = Some n ->
  nth_error (observers s) k = Some (mkObserver n id false) ->
  nth_error (gens s) n = Some g ->
  let s'' := observer_step app k (step app s (Receive (Stop id))) in
  sent s'' = sent s ++ [Complete id] /\ observer_step app k s'' = s''.
Proof.
  intros L Ho Hn Hk Hg s''. subst s''.
  rewrite (stop_registered_step _ _ _ _ L Ho Hn).
  set (s1 := set_subscriptions _ _).
  destruct (update_gen_fields n close_gen s) as [_ [_ [E3 [E4 [E5 [_ E7]]]]]].
  assert (K1 : nth_error (observers s1) k = Some (mkObserver n id false)) by (simpl; congruence).
  assert (G1 : nth_error (gens s1) n = Some (close_gen g))
    by (simpl; rewrite E7, Nat.eqb_refl, Hg; reflexivity).
  assert (O1 : is_open s1 = true) by (unfold is_open in *; simpl; congruence).
  rewrite (observer_step_closed app s1 k _ _ K1 eq_refl G1 eq_refl), O1.
  cbn [obs_id]. split.
  - rewrite sent_mark_done. simpl. now rewrite E4.
  - pose proof (mark_done_done k (set_sent (sent s1 ++ [Complete id]) s1) _ K1) as D.
    unfold observer_step at 1. rewrite D. reflexivity.
Qed.

Lemma stop_then_complete_witness :
  sent (observer_step Fixtures.app_default 0
          (step Fixtures.app_default
             (run Fixtures.app_default [Receive (Start "q1" Fixtures.sub_count3)] initial_session)
             (Receive (Stop "q1")))) = [Complete "q1"].
Proof.
  exact (proj1 (stop_then_complete Fixtures.app_default
                  (run Fixtures.app_default [Receive (Start "q1" Fixtures.sub_count3)]
                     initial_session)
                  "q1" 0 0 (mkGen [PInt 0; PInt 1; PInt 2] None false false)
                  eq_refl eq_refl eq_refl eq_refl eq_refl)).
Defined.

(** A [start] of a query or a mutation sends one [data] message with the
    result, its errors included when the result was awaited, and no
    [complete]; nothing is registered. *)
Theorem ws_query_single_data app s id p op data errors :
  loop s = Looping -> is_open s = true ->
  (exists c, get_context_value app (PWebSocket (connection_params s)) = inl c) ->
  sp_parse p = Parsed op [] -> op <> Some SUBSCRIPTION ->
  (sp_execute p = ExecuteSync data [] /\ errors = [] \/
   sp_execute p = ExecuteAwaitable data errors) ->
  step app s (Receive (Start id p)) =
  set_sent (sent s ++ [Data id (result_payload app data errors)]) s.
Proof.
  intros L Ho [c Hc] Hp Hop Hex.
  assert (Hs : is_open (set_sent (sent s ++ [Data id (result_payload app data errors)]) s)
               = true) by exact Ho.
  rewrite (step_receive _ _ _ L). unfold loop_iteration. simpl.
  unfold ws_on_start, bind, get, lift. rewrite Hp. simpl. rewrite Hc. simpl.
  destruct op as [[| |]|]; [| |congruence|];
    unfold handle_query_over_ws;
    (destruct Hex as [[He ->]|He]; rewrite He; unfold bind;
     rewrite (send_json_open _ _ Ho); unfold ret; now rewrite Hs).
Qed.

Lemma ws_query_single_data_witness :
  step Fixtures.app_default initial_session (Receive (Start "q" Fixtures.query_hello)) =
  set_sent [Data "q" (result_payload Fixtures.app_default (PStr "world") [])] initial_session.
Proof.
  exact (ws_query_single_data Fixtures.app_default initial_session "q" Fixtures.query_hello
           (Some QUERY) (PStr "world") [] eq_refl eq_refl (ex_intro _ _ eq_refl) eq_refl
           ltac:(discriminate) (or_introl (conj eq_refl eq_refl))).
Defined.

Lemma observer_step_yield_fl app t k n id x rest fl :
  nth_error (observers t) k = Some (mkObserver n id false) ->
  nth_error (gens t) n = Some (mkGen (x :: rest) fl false false) ->
  is_open t = true ->
  let t' := update_gen n (fun g => mkGen rest (failure g) (closed g) (exhausted g)) t in
  observer_step app k t = set_sent (sent t ++ [Data id (PDict [("data", x)])]) t'.
Proof.
  intros Ho Hg Hopen t'.
  destruct (update_gen_fields n (fun g => mkGen rest (failure g) (closed g) (exhausted g)) t)
    as [_ [_ [_ [E4 [E5 _]]]]].
  fold t' in E4, E5.
  unfold observer_step. rewrite Ho. cbn [obs_done obs_gen obs_id]. rewrite Hg.
  unfold observer_body. cbn [closed pending obs_id obs_gen].
  unfold bind, modify, catch, ret. fold t'.
  rewrite (send_json_open _ _ (eq_trans E5 Hopen)), E4. reflexivity.
Qed.

Lemma observer_step_fail app t k n id f :
  nth_error (observers t) k = Some (mkObserver n id false) ->
  nth_error (gens t) n = Some (mkGen [] (Some f) false false) ->
  is_open t = true ->
  sent (observer_step app k t) =
  sent t ++ [Data id (PDict [("errors", PList [error_formatter app (failure_message f)])]);
             Complete id].
Proof.
  intros Ho Hg Hopen.
  set (t' := update_gen n (fun g => mkGen [] None (closed g) true) t).
  destruct (update_gen_fields n (fun g => mkGen [] None (closed g) true) t)
    as [_ [_ [_ [E4 [E5 _]]]]].
  fold t' in E4, E5.
  unfold observer_step. rewrite Ho. cbn [obs_done obs_gen obs_id]. rewrite Hg.
  unfold observer_body. cbn [closed pending obs_id obs_gen failure].
  unfold bind, modify, ret. fold t'.
  unfold observer_except, bind.
  rewrite (send_json_open _ _ (eq_trans E5 Hopen)).
  unfold observer_tail, bind, get.
  assert (O2 : is_open (set_sent (sent t' ++ [Data id (PDict [("errors",
                 PList [error_formatter app (failure_message f)])])]) t') = true)
    by exact (eq_trans E5 Hopen).
  rewrite O2, (send_json_open _ _ O2). unfold ret.
  rewrite sent_mark_done. simpl. rewrite E4, <- app_assoc. reflexivity.
Qed.

Lemma observer_messages_fail app k n id f rs : forall t,
  nth_error (observers t) k = Some (mkObserver n id false) ->
  nth_error (gens t) n = Some (mkGen rs (Some f) false false) ->
  is_open t = true ->
  sent (run app (repeat (ObserverStep k) (S (length rs))) t) =
  sent t ++ map (fun r => Data id (PDict [("data", r)])) rs ++
  [Data id (PDict [("errors", PList [error_formatter app (failure_message f)])]); Complete id].
Proof.
  induction rs as [|x rest IH]; intros t Ho Hg Hopen.
  - simpl. exact (observer_step_fail app t k n id f Ho Hg Hopen).
  - change (run app (repeat (ObserverStep k) (S (length (x :: rest)))) t)
      with (run app (repeat (ObserverStep k) (S (length rest))) (step app t (ObserverStep k))).
    simpl step. rewrite (observer_step_yield_fl app t k n id x rest (Some f) Ho Hg Hopen).
    set (f' := fun g => mkGen rest (failure g) (closed g) (exhausted g)).
    destruct (update_gen_fields n f' t) as [_ [_ [E3 [E4 [E5 [_ E7]]]]]].
    rewrite IH.
    + simpl. rewrite <- app_assoc. reflexivity.
    + simpl. rewrite E3. exact Ho.
    + simpl. rewrite E7, Nat.eqb_refl, Hg. reflexivity.
    + unfold is_open in *. simpl. exact (eq_trans E5 Hopen).
Qed.

(** A subscription whose producer yields its results and then raises: one
    [data] per result, then one [data] carrying the formatted error, then
    [complete], all with the id of the [start]. *)
Theorem subscription_failure_messages app s id p results f :
  loop s = Looping -> is_open s = true ->
  (exists c, get_context_value app (PWebSocket (connection_params s)) = inl c) ->
  sp_parse p = Parsed (Some SUBSCRIPTION) [] ->
  sp_subscribe p = SubscribeStream results (Some f) ->
  sent (run app (Receive (Start id p)
                 :: repeat (ObserverStep (length (observers s))) (S (length results))) s) =
  sent s ++ map (fun r => Data id (PDict [("data", r)])) results ++
  [Data id (PDict [("errors", PList [error_formatter app (failure_message f)])]); Complete id].
Proof.
  intros L Ho Hc Hp Hsub.
  change (run app (Receive (Start id p) :: ?evs) s)
    with (run app evs (step app s (Receive (Start id p)))).
  rewrite (start_subscription_registers app s id p results (Some f) L Ho Hc Hp Hsub).
  destruct (register_fields id results (Some f) s) as [R1 [R2 [R3 R4]]].
  rewrite (observer_messages_fail app _ _ _ _ _ _ R1 R2 (eq_trans R3 Ho)), R4.
  reflexivity.
Qed.

Lemma subscription_failure_messages_witness :
  sent (run Fixtures.app_default
          (Receive (Start "q1" Fixtures.sub_one_then_fail) :: repeat (ObserverStep 0) 2)
          initial_session) =
  [Data "q1" (PDict [("data", PInt 0)]);
   Data "q1" (PDict [("errors", PList [Fixtures.format_error "boom"])]); Complete "q1"].
Proof.
  exact (subscription_failure_messages Fixtures.app_default initial_session "q1"
           Fixtures.sub_one_then_fail [PInt 0] (FailOther "boom")
           eq_refl eq_refl (ex_intro _ _ eq_refl) eq_refl eq_refl).
Defined.

(** After the client disconnects, the task of every registered subscription
    finds its producer closed and the socket no longer open: its next step
    sends nothing. *)
Theorem disconnect_silences_registered app evs k o id :
  let s := run app evs initial_session in
  loop s = Looping ->
  let s' := step app s ClientDisconnect in
  nth_error (observers s') k = Some o ->
  dict_get id (subscriptions s') = Some (obs_gen o) ->
  sent (observer_step app k s') = sent s'.
Proof.
  intros s L s' Ho Hid.
  assert (Hinv : teardown_inv s')
    by exact (step_teardown_inv app s ClientDisconnect
                (run_teardown_inv app evs initial_session initial_teardown_inv)).
  assert (Hs' : s' = finish None (set_client_state DISCONNECTED s))
    by (subst s'; simpl; rewrite L; reflexivity).
  assert (Lp : loop s' = Ended None) by (rewrite Hs'; reflexivity).
  assert (Op : is_open s' = false).
  { rewrite Hs'. unfold finish, close_registered. change (is_open
      (fold_left (fun s '(_, n) => update_gen n close_gen s)
         (subscriptions (set_client_state DISCONNECTED s))
         (set_client_state DISCONNECTED s)) = false).
    rewrite close_registered_is_open. reflexivity. }
  destruct Hinv as [_ Hcl].
  destruct (Hcl None Lp id (obs_gen o) Hid) as [g [G Hc]].
  destruct (obs_done o) eqn:Hd.
  - unfold observer_step. now rewrite Ho, Hd.
  - rewrite (observer_step_closed app s' k o g Ho Hd G Hc), Op.
    apply sent_mark_done.
Qed.

Lemma disconnect_silences_registered_witness :
  let s' := step Fixtures.app_default
              (run Fixtures.app_default [Receive (Start "q1" Fixtures.sub_count3)] initial_session)
              ClientDisconnect in
  sent (observer_step Fixtures.app_default 0 s') = sent s'.
Proof.
  exact (disconnect_silences_registered Fixtures.app_default
           [Receive (Start "q1" Fixtures.sub_count3)] 0 (mkObserver 0 "q1" false) "q1"
           eq_refl eq_refl eq_refl).
Defined.

Lemma observer_body_app_closed app o g s :
  application_state s = DISCONNECTED ->
  fst (observer_body app o g s) <> inl false /\
  sent (snd (observer_body app o g s)) = sent s /\
  observers (snd (observer_body app o g s)) = observers s.
Proof.
  intros Ha. assert (Oa : is_open s = false) by exact (is_open_app_closed s Ha).
  unfold observer_body.
  destruct (closed g).
  { unfold observer_tail, bind, get, ret. rewrite Oa. simpl. repeat split. discriminate. }
  destruct (pending g) as [|x rest].
  - set (f := fun g0 => mkGen [] None (closed g0) true).
    destruct (update_gen_fields (obs_gen o) f s) as [_ [_ [E3 [E4 _]]]].
    pose proof (eq_trans (update_gen_application_state (obs_gen o) f s) Ha) as Ht.
    pose proof (is_open_app_closed _ Ht) as Ot.
    unfold bind, modify.
    destruct (failure g).
    + unfold observer_except, bind. rewrite (send_json_closed _ _ Ht). simpl.
      repeat split; auto. discriminate.
    + unfold observer_tail, bind, get, ret. rewrite Ot. simpl.
      repeat split; auto. discriminate.
  - set (f := fun g0 => mkGen rest (failure g0) (closed g0) (exhausted g0)).
    destruct (update_gen_fields (obs_gen o) f s) as [_ [_ [E3 [E4 _]]]].
    pose proof (eq_trans (update_gen_application_state (obs_gen o) f s) Ha) as Ht.
    unfold bind, modify, catch.
    rewrite (send_json_closed _ _ Ht).
    unfold observer_except, bind. rewrite (send_json_closed _ _ Ht). simpl.
    repeat split; auto. discriminate.
Qed.

(** Once the server side of the socket is closed, the next step of any
    subscription task sends nothing and ends the task: every send raises,
    the [except] branch's send raises too, and the task dies. *)
Theorem app_closed_tasks_end app s k :
  application_state s = DISCONNECTED ->
  sent (observer_step app k s) = sent s /\
  (forall o g, nth_error (observers s) k = Some o -> nth_error (gens s) (obs_gen o) = Some g ->
     exists o', nth_error (observers (observer_step app k s)) k = Some o' /\ obs_done o' = true).
Proof.
  intros Ha. unfold observer_step.
  destruct (nth_error (observers s) k) as [o|] eqn:Ho;
    [|split; [reflexivity|intros o0 g H; discriminate]].
  destruct (obs_done o) eqn:Hd.
  { split; [reflexivity|]. intros o0 g H _. injection H as <-. rewrite Ho. eauto. }
  destruct (nth_error (gens s) (obs_gen o)) as [g|] eqn:Hg;
    [|split; [reflexivity|intros o0 g0 H H'; injection H as <-; congruence]].
  destruct (observer_body_app_closed app o g s Ha) as [B1 [B2 B3]].
  destruct (observer_body app o g s) as [[[|]|e] s'] eqn:E; simpl in B1, B2, B3;
    [| contradiction |].
  all: split; [rewrite sent_mark_done; exact B2|].
  all: intros o0 g0 H _; injection H as <-.
  all: rewrite (mark_done_done k s' o) by (rewrite B3; exact Ho); eauto.
Qed.

Lemma app_closed_tasks_end_witness :
  let s := step Fixtures.app_default
             (step Fixtures.app_default initial_session (Receive (Start "q1" Fixtures.sub_count3)))
             (Receive ConnectionTerminate) in
  sent (observer_step Fixtures.app_default 0 s) = sent s.
Proof.
  cbv zeta.
  exact (proj1 (app_closed_tasks_end Fixtures.app_default
    (step Fixtures.app_default
       (step Fixtures.app_default initial_session (Receive (Start "q1" Fixtures.sub_count3)))
       (Receive ConnectionTerminate)) 0 ltac:(vm_compute; reflexivity))).
Defined.
